(** * vault_awx_update_role_id.py: a shallow embedding and its properties

    The script reads one field of a Vault secret and writes it into the
    [inputs] mapping of a named AWX credential.  It is a straight line of
    calls to the outside world with early exits.  The embedding below keeps
    that shape: Python values are an inductive type, a dict is a finite map,
    the outside world is a record of the answers it gives to the calls the
    script makes, and [main] lives in a small monad that records every
    observable action (prints, prompts, network calls) in a trace and
    distinguishes a normal return, [sys.exit] and a raised exception. *)

From Stdlib Require Import ZArith String Ascii List.
From Stdlib Require Import Floats.SpecFloat.
From stdpp Require Import base strings gmap list pretty.

Set Warnings "-register-all".

(** ** Python values *)

(** What [json()] and hvac hand back: None, bool, int, float, str, list and
    dict with string keys.  Strings are byte strings (UTF-8 as in this
    file); a float is an IEEE value of [spec_float]. *)
Inductive json : Type :=
| JNull
| JBool (b : bool)
| JInt (n : Z)
| JFloat (f : spec_float)
| JStr (s : string)
| JList (l : list json)
| JObj (m : gmap string json).

Inductive pytype : Type :=
| TNone | TBool | TInt | TFloat | TStr | TList | TDict | TNamespace.

Definition type_of (v : json) : pytype :=
  match v with
  | JNull => TNone
  | JBool _ => TBool
  | JInt _ => TInt
  | JFloat _ => TFloat
  | JStr _ => TStr
  | JList _ => TList
  | JObj _ => TDict
  end.

(** A subscript [v[k]]: the script only ever writes a string literal or 0. *)
Inductive subscript : Type :=
| SubStr (s : string)
| SubInt (i : Z).

(** Exceptions below [Exception].  The first five are raised by the
    interpreter on the script's own expressions; [HTTPError] comes from
    [raise_for_status], with the status, the reason phrase and the URL its
    message is made of; [Foreign] stands for anything raised inside hvac,
    requests or getpass, identified by its text. *)
Inductive exn : Type :=
| KeyError (k : subscript)
| IndexError (t : pytype)
| TypeErrorGetItem (t : pytype) (k : subscript)
| TypeErrorSetItem (t : pytype) (k : subscript)
| AttributeError (t : pytype) (attr : string)
| HTTPError (status : Z) (reason_phrase request_url : string)
| Foreign (msg : string).

Inductive result (A : Type) : Type :=
| Ok (a : A)
| Err (e : exn).
Arguments Ok {A} a.
Arguments Err {A} e.

#[export] Instance result_ret : MRet result := λ A a, Ok a.

#[export] Instance result_bind : MBind result := λ A B k r,
  match r with
  | Ok a => k a
  | Err e => Err e
  end.

(** [bool(v)], as used by [not v] and [a or b]. *)
Definition truthy (v : json) : bool :=
  match v with
  | JNull => false
  | JBool b => b
  | JInt n => negb (n =? 0)%Z
  | JFloat f => match f with S754_zero _ => false | _ => true end
  | JStr s => match s with EmptyString => false | String _ _ => true end
  | JList l => match l with [] => false | _ :: _ => true end
  | JObj m => match map_to_list m with [] => false | _ :: _ => true end
  end.

(** Position [i] of a sequence of length [n], counting from the end when
    negative. *)
Definition seq_index (n : nat) (i : Z) : option nat :=
  if (0 <=? i)%Z then
    (if (i <? Z.of_nat n)%Z then Some (Z.to_nat i) else None)
  else
    (if (0 <=? Z.of_nat n + i)%Z then Some (Z.to_nat (Z.of_nat n + i)) else None).

(** [v[k]].  A dict from JSON has string keys only, so an integer subscript
    is always a missing key.  Indexing a str gives a one-element str (a byte
    here, a code point in Python; the script never looks inside it). *)
Definition getitem (v : json) (k : subscript) : result json :=
  match v, k with
  | JObj m, SubStr s =>
      match m !! s with
      | Some x => Ok x
      | None => Err (KeyError k)
      end
  | JObj _, SubInt _ => Err (KeyError k)
  | JList l, SubInt i =>
      match seq_index (length l) i with
      | Some n =>
          match l !! n with
          | Some x => Ok x
          | None => Err (IndexError TList)
          end
      | None => Err (IndexError TList)
      end
  | JStr s, SubInt i =>
      match seq_index (String.length s) i with
      | Some n => Ok (JStr (String.substring n 1 s))
      | None => Err (IndexError TStr)
      end
  | _, _ => Err (TypeErrorGetItem (type_of v) k)
  end.

(** [v.get(k, default)]: only a dict has the method.  The key is an
    attribute of the namespace or a literal, so it is a str or [None]; [None]
    is never a key of a dict that came from JSON. *)
Definition get (v : json) (k : option string) (default : json) : result json :=
  match v with
  | JObj m =>
      match k ≫= (m !!.) with
      | Some x => Ok x
      | None => Ok default
      end
  | _ => Err (AttributeError (type_of v) "get")
  end.

(** [v[k] = x] for a string [k]: a dict binds the key, keeping the others. *)
Definition setitem (v : json) (k : string) (x : json) : result json :=
  match v with
  | JObj m => Ok (JObj (<[k := x]> m))
  | _ => Err (TypeErrorSetItem (type_of v) (SubStr k))
  end.

(** [s.replace(a, b)] for single characters. *)
Fixpoint replace_char (a b : ascii) (s : string) : string :=
  match s with
  | EmptyString => EmptyString
  | String c s' =>
      String (if Ascii.eqb c a then b else c) (replace_char a b s')
  end.

(** ** The command line and the environment *)

(** The flags that were given on a command line that argparse accepts
    ([None]: flag absent).  On [--help] and on a command line it cannot
    parse, argparse ends the process itself, with status 0 and 2, before
    [main] does anything: such invocations are no [CommandLine]. *)
Record CommandLine : Type := {
  flag_vault_addr : option string;
  flag_vault_secret : option string;
  flag_key : option string;
  flag_subkey : option string;
  flag_awx_url : option string;
  flag_cred_name : option string;
  flag_username : option string;
  flag_password : option string;
  flag_no_verify_tls : bool
}.

(** The namespace [parse_args] returns: an attribute is [None] or a str. *)
Record Namespace : Type := {
  vault_addr : option string;
  vault_secret : option string;
  key : option string;
  subkey : option string;
  awx_url : option string;
  cred_name : option string;
  username : option string;
  password : option string;
  no_verify_tls : bool
}.

Definition getenv (environ : gmap string string) (name : string)
  : option string :=
  environ !! name.

(** An option of argparse with [default=os.getenv(name)]. *)
Definition add_argument (flag : option string) (environ : gmap string string)
    (name : string) : option string :=
  match flag with
  | Some v => Some v
  | None => getenv environ name
  end.

Definition parse_args (argv : CommandLine) (environ : gmap string string)
  : Namespace :=
  {| vault_addr := add_argument (flag_vault_addr argv) environ "VAULT_ADDR";
     vault_secret := add_argument (flag_vault_secret argv) environ "VAULT_SECRET";
     key := add_argument (flag_key argv) environ "VAULT_KEY";
     subkey := add_argument (flag_subkey argv) environ "VAULT_SUBKEY";
     awx_url := add_argument (flag_awx_url argv) environ "AWX_URL";
     cred_name := add_argument (flag_cred_name argv) environ "AWX_CRED_NAME";
     username := add_argument (flag_username argv) environ "VAULT_USERNAME";
     password := add_argument (flag_password argv) environ "VAULT_PASSWORD";
     no_verify_tls := flag_no_verify_tls argv |}.

(** The same command line without [--password]. *)
Definition without_password_flag (argv : CommandLine) : CommandLine :=
  {| flag_vault_addr := flag_vault_addr argv;
     flag_vault_secret := flag_vault_secret argv;
     flag_key := flag_key argv;
     flag_subkey := flag_subkey argv;
     flag_awx_url := flag_awx_url argv;
     flag_cred_name := flag_cred_name argv;
     flag_username := flag_username argv;
     flag_password := None;
     flag_no_verify_tls := flag_no_verify_tls argv |}.

(** [getattr(args, param)]. *)
Definition getattr (args : Namespace) (param : string)
  : result (option string) :=
  if String.eqb param "vault_addr" then Ok (vault_addr args)
  else if String.eqb param "vault_secret" then Ok (vault_secret args)
  else if String.eqb param "key" then Ok (key args)
  else if String.eqb param "subkey" then Ok (subkey args)
  else if String.eqb param "awx_url" then Ok (awx_url args)
  else if String.eqb param "cred_name" then Ok (cred_name args)
  else if String.eqb param "username" then Ok (username args)
  else if String.eqb param "password" then Ok (password args)
  else Err (AttributeError TNamespace param).

Definition required : list string :=
  ["vault_addr"; "vault_secret"; "key"; "subkey"; "awx_url"; "cred_name";
   "username"].

(** ** The outside world *)

(** What a [requests] response offers to the script: the status, the body
    text, and what [json()] gives (a value or an exception); and the reason
    phrase and the URL, which [raise_for_status] puts in its message. *)
Record response : Type := {
  status_code : Z;
  text : string;
  json_body : result json;
  reason : string;
  response_url : string
}.

(** [raise_for_status()]. *)
Definition raise_for_status (r : response) : result unit :=
  if ((400 <=? status_code r) && (status_code r <? 600))%Z
  then Err (HTTPError (status_code r) (reason r) (response_url r))
  else Ok tt.

(** Line 71: [read_response["data"]["data"]], the secret document. *)
Definition secret_document (read_response : json) : result json :=
  data ← getitem read_response (SubStr "data");
  getitem data (SubStr "data").

(** Line 72: [secret_data.get(key, {}).get(subkey)]. *)
Definition two_level_lookup (secret_data : json) (key subkey : option string)
  : result json :=
  under_key ← get secret_data key (JObj ∅);
  get under_key subkey JNull.

(** Lines 71-72 together. *)
Definition secret_lookup (read_response : json) (key subkey : option string)
  : result json :=
  secret_data ← secret_document read_response;
  two_level_lookup secret_data key subkey.

(** Lines 89-90: [raise_for_status()], then [json().get("results", [])]. *)
Definition results_of (r : response) : result json :=
  raise_for_status r;;
  body ← json_body r;
  get body (Some "results") (JList []).

(** Line 94: [results[0]["id"]]. *)
Definition first_id (results : json) : result json :=
  first ← getitem results (SubInt 0);
  getitem first (SubStr "id").

(** Lines 104-105: [raise_for_status()], then [json().get("inputs", {})]. *)
Definition inputs_of (r : response) : result json :=
  raise_for_status r;;
  body ← json_body r;
  get body (Some "inputs") (JObj ∅).

(** Line 113: the [json=] argument of the PATCH. *)
Definition patch_body (inputs : json) : json :=
  JObj {["inputs" := inputs]}.

(** A run makes each outside call at most once, so the world is the answer
    it gives to each: a value, or the exception raised. *)
Record World : Type := {
  getpass_answer : result string;
  userpass_login_answer : result unit;
  is_authenticated_answer : result bool;
  read_secret_version_answer : result json;
  find_answer : result response;
  detail_answer : result response;
  patch_answer : result response;
  default_headers : gmap string string
}.

Record Session : Type := {
  auth : option string * string;
  headers : gmap string string
}.

(** Everything a run does that can be observed from outside. *)
Inductive event : Type :=
| Stdout (line : string)
| Traceback (e : exn)
| GetPass (prompt : string)
| VaultLogin (url : option string) (verify : bool)
    (user : option string) (pass : string)
| VaultIsAuthenticated (url : option string)
| VaultRead (url : option string) (path : option string)
| HttpGet (s : Session) (url : string) (verify : bool)
| HttpPatch (s : Session) (url : string) (body : json) (verify : bool).

Definition is_vault_call (ev : event) : bool :=
  match ev with
  | VaultLogin _ _ _ _ | VaultIsAuthenticated _ | VaultRead _ _ => true
  | _ => false
  end.

Definition is_platform_call (ev : event) : bool :=
  match ev with
  | HttpGet _ _ _ | HttpPatch _ _ _ _ => true
  | _ => false
  end.

Definition is_network_call (ev : event) : bool :=
  is_vault_call ev || is_platform_call ev.

(** ** The monad of the script *)

Inductive outcome (A : Type) : Type :=
| Return (a : A)
| Exit (code : Z)
| Raise (e : exn).
Arguments Return {A} a.
Arguments Exit {A} code.
Arguments Raise {A} e.

Definition M (A : Type) : Type := (outcome A * list event)%type.

#[export] Instance M_ret : MRet M := λ A a, (Return a, []).

#[export] Instance M_bind : MBind M := λ A B k m,
  match m with
  | (Return a, t) => let '(o, t') := k a in (o, t ++ t')
  | (Exit c, t) => (Exit c, t)
  | (Raise e, t) => (Raise e, t)
  end.

(** [print(line)]. *)
Definition print (line : string) : M unit := (Return tt, [Stdout line]).

(** [sys.exit(code)]: SystemExit is not an [Exception]. *)
Definition sys_exit {A} (code : Z) : M A := (Exit code, []).

(** An expression that may raise, without effect on the world. *)
Definition eval {A} (r : result A) : M A :=
  match r with
  | Ok a => (Return a, [])
  | Err e => (Raise e, [])
  end.

(** A call to the outside world: the call is observed, then its answer. *)
Definition call {A} (ev : event) (r : result A) : M A :=
  match r with
  | Ok a => (Return a, [ev])
  | Err e => (Raise e, [ev])
  end.

(** [try: body / except Exception as e: handler]. *)
Definition try_except {A} (body : M A) (handler : exn → M A) : M A :=
  match body with
  | (Raise e, t) => let '(o, t') := handler e in (o, t ++ t')
  | other => other
  end.

(** ** What a trace shows *)

(** The bodies of the PATCH requests, in order. *)
Definition patch_bodies (t : list event) : list json :=
  omap (λ ev, match ev with HttpPatch _ _ body _ => Some body | _ => None end) t.

Definition platform_calls (t : list event) : list event :=
  List.filter is_platform_call t.

Definition network_calls (t : list event) : list event :=
  List.filter is_network_call t.

Definition url_of (ev : event) : option string :=
  match ev with
  | HttpGet _ url _ | HttpPatch _ url _ _ => Some url
  | _ => None
  end.

(** The password a call authenticates with. *)
Definition password_of (ev : event) : option string :=
  match ev with
  | VaultLogin _ _ _ pass => Some pass
  | HttpGet s _ _ | HttpPatch s _ _ _ => Some (snd (auth s))
  | _ => None
  end.

Definition passwords_used (t : list event) : list string :=
  omap password_of t.

(** [sub] occurs in [s]. *)
Definition occurs_in (sub s : string) : Prop :=
  ∃ pre post, s = pre +:+ sub +:+ post.

(** The value under ["role_id"] of the field mapping a PATCH body carries. *)
Definition written_role_id (body : json) : option json :=
  match body with
  | JObj m =>
      match m !! "inputs" with
      | Some (JObj inputs) => inputs !! "role_id"
      | _ => None
      end
  | _ => None
  end.

(** The world [w] with another answer to the secret read. *)
Definition with_secret (w : World) (r : result json) : World :=
  {| getpass_answer := getpass_answer w;
     userpass_login_answer := userpass_login_answer w;
     is_authenticated_answer := is_authenticated_answer w;
     read_secret_version_answer := r;
     find_answer := find_answer w;
     detail_answer := detail_answer w;
     patch_answer := patch_answer w;
     default_headers := default_headers w |}.

(** Two worlds that give the same answers, except for the secret read and
    for the PATCH. *)
Definition same_but_secret_and_patch (w1 w2 : World) : Prop :=
  getpass_answer w1 = getpass_answer w2 ∧
  userpass_login_answer w1 = userpass_login_answer w2 ∧
  is_authenticated_answer w1 = is_authenticated_answer w2 ∧
  find_answer w1 = find_answer w2 ∧
  detail_answer w1 = detail_answer w2 ∧
  default_headers w1 = default_headers w2.

(** The answer of Vault for a secret document [secret_data]. *)
Definition secret_response (secret_data : json) : json :=
  JObj {["data" := JObj {["data" := secret_data]}]}.

(** The lines printed, in order. *)
Definition stdout_lines (t : list event) : list string :=
  omap (λ ev, match ev with Stdout line => Some line | _ => None end) t.

(** The [verify] argument of a network call. *)
Definition verify_of (ev : event) : option bool :=
  match ev with
  | VaultLogin _ verify _ _ => Some verify
  | HttpGet _ _ verify | HttpPatch _ _ _ verify => Some verify
  | _ => None
  end.

(** The session a platform request goes through. *)
Definition session_of (ev : event) : option Session :=
  match ev with
  | HttpGet s _ _ | HttpPatch s _ _ _ => Some s
  | _ => None
  end.

Definition is_vault_read (ev : event) : bool :=
  match ev with
  | VaultRead _ _ => true
  | _ => false
  end.

(** The environment variables that [parse_args] falls back on: those of the
    options whose flag is not on the command line. *)
Definition fallback (flag : option string) (name : string) : list string :=
  match flag with
  | Some _ => []
  | None => [name]
  end.

Definition env_fallbacks (argv : CommandLine) : list string :=
  fallback (flag_vault_addr argv) "VAULT_ADDR" ++
  fallback (flag_vault_secret argv) "VAULT_SECRET" ++
  fallback (flag_key argv) "VAULT_KEY" ++
  fallback (flag_subkey argv) "VAULT_SUBKEY" ++
  fallback (flag_awx_url argv) "AWX_URL" ++
  fallback (flag_cred_name argv) "AWX_CRED_NAME" ++
  fallback (flag_username argv) "VAULT_USERNAME" ++
  fallback (flag_password argv) "VAULT_PASSWORD".

(** ** Sample runs that fail *)

Module Failing.

(** Vault refuses the login. *)
Definition login_refused : World :=
  {| getpass_answer := Ok "typed";
     userpass_login_answer := Err (Foreign "permission denied");
     is_authenticated_answer := Ok false;
     read_secret_version_answer := Err (Foreign "permission denied");
     find_answer := Err (Foreign "unreachable");
     detail_answer := Err (Foreign "unreachable");
     patch_answer := Err (Foreign "unreachable");
     default_headers := ∅ |}.

(** Nobody answers the prompt. *)
Definition no_terminal : World :=
  {| getpass_answer := Err (Foreign "EOF when reading a line");
     userpass_login_answer := Ok tt;
     is_authenticated_answer := Ok true;
     read_secret_version_answer := Err (Foreign "unreachable");
     find_answer := Err (Foreign "unreachable");
     detail_answer := Err (Foreign "unreachable");
     patch_answer := Err (Foreign "unreachable");
     default_headers := ∅ |}.

(** A response with an error status and a body that would otherwise do. *)
Definition forbidden (body : json) : response :=
  {| status_code := 403;
     text := "Forbidden";
     json_body := Ok body;
     reason := "Forbidden";
     response_url := "https://awxurl.com/api/v2/credentials/?name=my-credential" |}.

End Failing.

(** ** Sample runs *)

Module Demo.

(** [type(v).__name__]. *)
Definition type_name (t : pytype) : string :=
  match t with
  | TNone => "NoneType"
  | TBool => "bool"
  | TInt => "int"
  | TFloat => "float"
  | TStr => "str"
  | TList => "list"
  | TDict => "dict"
  | TNamespace => "Namespace"
  end.

(** [str(e)], as CPython 3.12 and requests word it. *)
Definition str_exn (e : exn) : string :=
  match e with
  | KeyError (SubStr k) => "'" +:+ k +:+ "'"
  | KeyError (SubInt i) => pretty i
  | IndexError TStr => "string index out of range"
  | IndexError _ => "list index out of range"
  | TypeErrorGetItem TList _ | TypeErrorSetItem TList _ =>
      "list indices must be integers or slices, not str"
  | TypeErrorGetItem TStr _ => "string indices must be integers, not 'str'"
  | TypeErrorGetItem t _ =>
      "'" +:+ type_name t +:+ "' object is not subscriptable"
  | TypeErrorSetItem t _ =>
      "'" +:+ type_name t +:+ "' object does not support item assignment"
  | AttributeError t attr =>
      "'" +:+ type_name t +:+ "' object has no attribute '" +:+ attr +:+ "'"
  | HTTPError status reason_phrase request_url =>
      pretty status
        +:+ (if (status <? 500)%Z then " Client Error: " else " Server Error: ")
        +:+ reason_phrase +:+ " for url: " +:+ request_url
  | Foreign msg => msg
  end.

Definition repr_value (v : json) : string := "...".

(** The command line of the usage example, the rest from the environment. *)
Definition argv : CommandLine :=
  {| flag_vault_addr := None;
     flag_vault_secret := None;
     flag_key := Some "credentials";
     flag_subkey := Some "password";
     flag_awx_url := None;
     flag_cred_name := Some "my-credential";
     flag_username := None;
     flag_password := None;
     flag_no_verify_tls := false |}.

Definition environ : gmap string string :=
  {["VAULT_ADDR" := "https://vaulturl.com";
    "VAULT_SECRET" := "secret/user1";
    "VAULT_USERNAME" := "user1";
    "VAULT_PASSWORD" := "hunter2";
    "AWX_URL" := "https://awxurl.com"]}.

(** The same with an empty password in the environment. *)
Definition environ_empty_password : gmap string string :=
  <["VAULT_PASSWORD" := ""]> environ.

(** No flag at all. *)
Definition no_flags : CommandLine :=
  {| flag_vault_addr := None;
     flag_vault_secret := None;
     flag_key := None;
     flag_subkey := None;
     flag_awx_url := None;
     flag_cred_name := None;
     flag_username := None;
     flag_password := None;
     flag_no_verify_tls := false |}.

Definition ok_response (body : json) : response :=
  {| status_code := 200;
     text := "{}";
     json_body := Ok body;
     reason := "OK";
     response_url := "https://awxurl.com/api/v2/credentials/" |}.

Definition bad_request : response :=
  {| status_code := 400;
     text := "Bad Request";
     json_body := Err (Foreign "Expecting value");
     reason := "Bad Request";
     response_url := "https://awxurl.com/api/v2/credentials/7/" |}.

(** A world in which every step succeeds: the secret is "X", two credentials
    match the name, and the first one (id 7) has the inputs a and b. *)
Definition world : World :=
  {| getpass_answer := Ok "typed";
     userpass_login_answer := Ok tt;
     is_authenticated_answer := Ok true;
     read_secret_version_answer :=
       Ok (secret_response
             (JObj {["credentials" := JObj {["password" := JStr "X"]}]}));
     find_answer :=
       Ok (ok_response
             (JObj {["count" := JInt 2;
                     "results" := JList [JObj {["id" := JInt 7]};
                                         JObj {["id" := JInt 8]}]]}));
     detail_answer :=
       Ok (ok_response
             (JObj {["id" := JInt 7;
                     "inputs" := JObj {["a" := JInt 1; "b" := JInt 2]}]}));
     patch_answer := Ok (ok_response (JObj ∅));
     default_headers := {["Accept" := "*/*"]} |}.

(** The same world with other answers. *)
Definition with_find (w : World) (r : result response) : World :=
  {| getpass_answer := getpass_answer w;
     userpass_login_answer := userpass_login_answer w;
     is_authenticated_answer := is_authenticated_answer w;
     read_secret_version_answer := read_secret_version_answer w;
     find_answer := r;
     detail_answer := detail_answer w;
     patch_answer := patch_answer w;
     default_headers := default_headers w |}.

Definition with_detail (w : World) (r : result response) : World :=
  {| getpass_answer := getpass_answer w;
     userpass_login_answer := userpass_login_answer w;
     is_authenticated_answer := is_authenticated_answer w;
     read_secret_version_answer := read_secret_version_answer w;
     find_answer := find_answer w;
     detail_answer := r;
     patch_answer := patch_answer w;
     default_headers := default_headers w |}.

Definition with_patch (w : World) (r : result response) : World :=
  {| getpass_answer := getpass_answer w;
     userpass_login_answer := userpass_login_answer w;
     is_authenticated_answer := is_authenticated_answer w;
     read_secret_version_answer := read_secret_version_answer w;
     find_answer := find_answer w;
     detail_answer := detail_answer w;
     patch_answer := r;
     default_headers := default_headers w |}.

(** The session of the sample runs with the password of the environment. *)
Definition session : Session :=
  {| auth := (Some "user1", "hunter2");
     headers := <["Content-Type" := "application/json"]> {["Accept" := "*/*"]} |}.

End Demo.

(** ** The script *)

Section Script.

(** [str()] belongs to the interpreter and the libraries.  Its text for an
    exception, and Python's [repr] of a float, a list or a dict, are taken
    as given. *)
Variable str_exn : exn → string.
Variable repr_value : json → string.

(** [str(v)] inside an f-string. *)
Definition str (v : json) : string :=
  match v with
  | JNull => "None"
  | JBool true => "True"
  | JBool false => "False"
  | JInt n => pretty n
  | JStr s => s
  | _ => repr_value v
  end.

(** [str()] of an attribute of the namespace. *)
Definition str_attr (a : option string) : string :=
  match a with
  | Some s => s
  | None => "None"
  end.

Definition missing_parameter_message (param : string) : string :=
  "❌ Missing required parameter: " +:+ param +:+ ". Use --"
    +:+ replace_char "_" "-" param +:+ " or environment variable.".

Definition getpass_prompt (args : Namespace) : string :=
  "Enter Vault userpass password for " +:+ str_attr (username args) +:+ ": ".

Definition vault_auth_failed_message : string :=
  "❌ Vault authentication failed.".

Definition vault_auth_error_message (e : exn) : string :=
  "❌ Vault auth error: " +:+ str_exn e.

Definition failed_to_retrieve_message (args : Namespace) : string :=
  "❌ Failed to retrieve '" +:+ str_attr (key args) +:+ "."
    +:+ str_attr (subkey args) +:+ "' from Vault.".

Definition retrieved_message : string :=
  "✅ Retrieved role_id from Vault".

Definition error_reading_message (e : exn) : string :=
  "❌ Error reading Vault secret: " +:+ str_exn e.

Definition find_url (args : Namespace) : string :=
  str_attr (awx_url args) +:+ "/api/v2/credentials/?name="
    +:+ str_attr (cred_name args).

Definition not_found_message (args : Namespace) : string :=
  "❌ Credential '" +:+ str_attr (cred_name args) +:+ "' not found.".

Definition found_message (args : Namespace) (cred_id : json) : string :=
  "✅ Found credential '" +:+ str_attr (cred_name args) +:+ "' with ID "
    +:+ str cred_id.

Definition error_fetching_message (e : exn) : string :=
  "❌ Error fetching credential: " +:+ str_exn e.

Definition cred_url_of (args : Namespace) (cred_id : json) : string :=
  str_attr (awx_url args) +:+ "/api/v2/credentials/" +:+ str cred_id +:+ "/".

Definition failed_to_fetch_message (e : exn) : string :=
  "❌ Failed to fetch credential details: " +:+ str_exn e.

Definition success_message (args : Namespace) (cred_id : json) : string :=
  "✅ Successfully updated 'role_id' for credential '"
    +:+ str_attr (cred_name args) +:+ "' (ID " +:+ str cred_id +:+ ")".

Definition failed_to_update_message (r : response) : string :=
  "❌ Failed to update credential: " +:+ pretty (status_code r) +:+ " "
    +:+ text r.

Definition error_during_update_message (e : exn) : string :=
  "❌ Error during update: " +:+ str_exn e.

(** Lines 48-52: the loop over [required]. *)
Fixpoint ensure_required (args : Namespace) (params : list string) : M unit :=
  match params with
  | [] => mret tt
  | param :: rest =>
      v ← eval (getattr args param);
      match v with
      | None => print (missing_parameter_message param);; sys_exit 1
      | Some _ => ensure_required args rest
      end
  end.

(** Line 55: [args.password or getpass.getpass(...)]. *)
Definition prompt_password (w : World) (args : Namespace) : M string :=
  match password args with
  | Some (String c p) => mret (String c p)
  | _ => call (GetPass (getpass_prompt args)) (getpass_answer w)
  end.

(** Lines 58-66. *)
Definition vault_login (w : World) (args : Namespace) (verify_tls : bool)
    (login_pass : string) : M unit :=
  try_except
    (call (VaultLogin (vault_addr args) verify_tls (username args) login_pass)
       (userpass_login_answer w);;
     authenticated ← call (VaultIsAuthenticated (vault_addr args))
       (is_authenticated_answer w);
     if negb authenticated
     then print vault_auth_failed_message;; sys_exit 1
     else mret tt)
    (λ e, print (vault_auth_error_message e);; sys_exit 1).

(** Lines 69-79. *)
Definition read_role_id (w : World) (args : Namespace) : M json :=
  try_except
    (read_response ← call (VaultRead (vault_addr args) (vault_secret args))
       (read_secret_version_answer w);
     role_id ← eval (secret_lookup read_response (key args) (subkey args));
     if negb (truthy role_id)
     then print (failed_to_retrieve_message args);; sys_exit 1
     else print retrieved_message;; mret role_id)
    (λ e, print (error_reading_message e);; sys_exit 1).

(** Lines 82-84. *)
Definition new_session (w : World) (args : Namespace) (login_pass : string)
  : Session :=
  {| auth := (username args, login_pass);
     headers := <["Content-Type" := "application/json"]> (default_headers w) |}.

(** Lines 87-98. *)
Definition find_credential (w : World) (args : Namespace) (session : Session)
    (verify_tls : bool) : M json :=
  try_except
    (response ← call (HttpGet session (find_url args) verify_tls)
       (find_answer w);
     results ← eval (results_of response);
     if negb (truthy results)
     then print (not_found_message args);; sys_exit 1
     else
       cred_id ← eval (first_id results);
       print (found_message args cred_id);;
       mret cred_id)
    (λ e, print (error_fetching_message e);; sys_exit 1).

(** Lines 101-108. *)
Definition fetch_inputs (w : World) (session : Session) (cred_url : string)
    (verify_tls : bool) : M json :=
  try_except
    (cred_response ← call (HttpGet session cred_url verify_tls)
       (detail_answer w);
     eval (inputs_of cred_response))
    (λ e, print (failed_to_fetch_message e);; sys_exit 1).

(** Lines 111-119. *)
Definition update_role_id (w : World) (args : Namespace) (session : Session)
    (cred_url : string) (cred_id current_inputs role_id : json)
    (verify_tls : bool) : M unit :=
  merged ← eval (setitem current_inputs "role_id" role_id);
  try_except
    (patch_resp ← call
       (HttpPatch session cred_url (patch_body merged) verify_tls)
       (patch_answer w);
     if ((status_code patch_resp =? 200) || (status_code patch_resp =? 202))%Z
     then print (success_message args cred_id)
     else print (failed_to_update_message patch_resp))
    (λ e, print (error_during_update_message e)).

Definition main (argv : CommandLine) (environ : gmap string string)
    (w : World) : M unit :=
  let args := parse_args argv environ in
  let verify_tls := negb (no_verify_tls args) in
  ensure_required args required;;
  login_pass ← prompt_password w args;
  vault_login w args verify_tls login_pass;;
  role_id ← read_role_id w args;
  let session := new_session w args login_pass in
  cred_id ← find_credential w args session verify_tls;
  let cred_url := cred_url_of args cred_id in
  current_inputs ← fetch_inputs w session cred_url verify_tls;
  update_role_id w args session cred_url cred_id current_inputs role_id
    verify_tls.

(** The process: status 0 when [main] returns, the argument of [sys.exit],
    and status 1 with a traceback when an exception escapes. *)
Definition run (argv : CommandLine) (environ : gmap string string)
    (w : World) : Z * list event :=
  match main argv environ w with
  | (Return _, t) => (0%Z, t)
  | (Exit code, t) => (code, t)
  | (Raise e, t) => (1%Z, t ++ [Traceback e])
  end.

Definition exit_code (argv : CommandLine) (environ : gmap string string)
    (w : World) : Z :=
  fst (run argv environ w).

Definition trace (argv : CommandLine) (environ : gmap string string)
    (w : World) : list event :=
  snd (run argv environ w).

(** ** The steps of a run, as conditions on its inputs *)

Definition present (args : Namespace) (param : string) : bool :=
  match getattr args param with
  | Ok (Some _) => true
  | _ => false
  end.

(** Every required parameter has a value. *)
Definition configured (args : Namespace) : bool :=
  forallb (present args) required.

(** Line 55 gives [login_pass]: supplied, or typed at the prompt. *)
Definition password_obtained (w : World) (args : Namespace)
    (login_pass : string) : Prop :=
  fst (prompt_password w args) = Return login_pass.

(** Vault accepts the login and reports the client authenticated. *)
Definition vault_ok (w : World) : Prop :=
  userpass_login_answer w = Ok tt ∧ is_authenticated_answer w = Ok true.

(** What lines 70-72 compute from the answer of Vault. *)
Definition retrieved_secret (w : World) (args : Namespace) : result json :=
  read_response ← read_secret_version_answer w;
  secret_lookup read_response (key args) (subkey args).

(** What lines 88-90 compute from the answer to the search by name. *)
Definition find_results (w : World) : result json :=
  response ← find_answer w;
  results_of response.

(** What lines 103-105 compute from the answer to the fetch. *)
Definition fetched_inputs (w : World) : result json :=
  cred_response ← detail_answer w;
  inputs_of cred_response.

(** The run gets as far as the secret read: configuration complete,
    password [login_pass] obtained, Vault login accepted. *)
Definition reaches_read (argv : CommandLine) (environ : gmap string string)
    (w : World) (login_pass : string) : Prop :=
  let args := parse_args argv environ in
  configured args = true ∧ password_obtained w args login_pass ∧ vault_ok w.

(** The run gets as far as the search: moreover the secret lookup gives
    the truthy value [role_id]. *)
Definition reaches_find (argv : CommandLine) (environ : gmap string string)
    (w : World) (login_pass : string) (role_id : json) : Prop :=
  let args := parse_args argv environ in
  reaches_read argv environ w login_pass ∧
  retrieved_secret w args = Ok role_id ∧ truthy role_id = true.

(** The run gets as far as the fetch: moreover the search gives a list whose
    first record has identifier [cred_id]. *)
Definition reaches_fetch (argv : CommandLine) (environ : gmap string string)
    (w : World) (login_pass : string) (role_id cred_id : json) : Prop :=
  reaches_find argv environ w login_pass role_id ∧
  ∃ results, find_results w = Ok results ∧ truthy results = true ∧
             first_id results = Ok cred_id.

(** The run gets as far as the update: moreover the fetch gives the field
    mapping [inputs]. *)
Definition reaches_update (argv : CommandLine) (environ : gmap string string)
    (w : World) (login_pass : string) (role_id cred_id : json)
    (inputs : gmap string json) : Prop :=
  reaches_fetch argv environ w login_pass role_id cred_id ∧
  fetched_inputs w = Ok (JObj inputs).

(** The trace up to and including the secret read. *)
Definition trace_to_read (argv : CommandLine) (environ : gmap string string)
    (w : World) (login_pass : string) : list event :=
  let args := parse_args argv environ in
  let verify_tls := negb (no_verify_tls args) in
  snd (prompt_password w args) ++
  [VaultLogin (vault_addr args) verify_tls (username args) login_pass;
   VaultIsAuthenticated (vault_addr args);
   VaultRead (vault_addr args) (vault_secret args)].

(** The trace up to and including the search by name. *)
Definition trace_to_find (argv : CommandLine) (environ : gmap string string)
    (w : World) (login_pass : string) : list event :=
  let args := parse_args argv environ in
  let verify_tls := negb (no_verify_tls args) in
  trace_to_read argv environ w login_pass ++
  [Stdout retrieved_message;
   HttpGet (new_session w args login_pass) (find_url args) verify_tls].

(** The trace up to and including the fetch. *)
Definition trace_to_fetch (argv : CommandLine) (environ : gmap string string)
    (w : World) (login_pass : string) (cred_id : json) : list event :=
  let args := parse_args argv environ in
  let verify_tls := negb (no_verify_tls args) in
  trace_to_find argv environ w login_pass ++
  [Stdout (found_message args cred_id);
   HttpGet (new_session w args login_pass) (cred_url_of args cred_id)
     verify_tls].

(** The line that reports the update (lines 114-119). *)
Definition update_report (w : World) (args : Namespace) (cred_id : json)
  : string :=
  match patch_answer w with
  | Ok patch_resp =>
      if ((status_code patch_resp =? 200) || (status_code patch_resp =? 202))%Z
      then success_message args cred_id
      else failed_to_update_message patch_resp
  | Err e => error_during_update_message e
  end.

(** The two lines with which the secret read can end the run. *)
Definition secret_not_found_line (args : Namespace) (line : string) : Prop :=
  line = failed_to_retrieve_message args ∨ ∃ e, line = error_reading_message e.

(** The events a run can show, each with the steps that went before it. *)
Inductive emitted (argv : CommandLine) (environ : gmap string string)
    (w : World) : event → Prop :=
| emitted_stdout line :
    emitted argv environ w (Stdout line)
| emitted_traceback e :
    emitted argv environ w (Traceback e)
| emitted_getpass :
    password (parse_args argv environ) = None ∨
    password (parse_args argv environ) = Some "" →
    emitted argv environ w (GetPass (getpass_prompt (parse_args argv environ)))
| emitted_login login_pass :
    password_obtained w (parse_args argv environ) login_pass →
    emitted argv environ w
      (VaultLogin (vault_addr (parse_args argv environ))
         (negb (no_verify_tls (parse_args argv environ)))
         (username (parse_args argv environ)) login_pass)
| emitted_is_authenticated :
    emitted argv environ w
      (VaultIsAuthenticated (vault_addr (parse_args argv environ)))
| emitted_read :
    emitted argv environ w
      (VaultRead (vault_addr (parse_args argv environ))
         (vault_secret (parse_args argv environ)))
| emitted_find login_pass role_id :
    reaches_find argv environ w login_pass role_id →
    emitted argv environ w
      (HttpGet (new_session w (parse_args argv environ) login_pass)
         (find_url (parse_args argv environ))
         (negb (no_verify_tls (parse_args argv environ))))
| emitted_fetch login_pass role_id cred_id :
    reaches_fetch argv environ w login_pass role_id cred_id →
    emitted argv environ w
      (HttpGet (new_session w (parse_args argv environ) login_pass)
         (cred_url_of (parse_args argv environ) cred_id)
         (negb (no_verify_tls (parse_args argv environ))))
| emitted_patch login_pass role_id cred_id inputs :
    reaches_update argv environ w login_pass role_id cred_id inputs →
    emitted argv environ w
      (HttpPatch (new_session w (parse_args argv environ) login_pass)
         (cred_url_of (parse_args argv environ) cred_id)
         (patch_body (JObj (<["role_id" := role_id]> inputs)))
         (negb (no_verify_tls (parse_args argv environ)))).

(** ** Further conditions on the inputs of a run *)

(** The line with which a refused Vault login ends the run (lines 61-66). *)
Definition vault_failure_line (w : World) : string :=
  match userpass_login_answer w with
  | Ok _ =>
      match is_authenticated_answer w with
      | Ok _ => vault_auth_failed_message
      | Err e => vault_auth_error_message e
      end
  | Err e => vault_auth_error_message e
  end.

(** What lines 88-94 compute from the answer to the search: the identifier,
    [None] when the result list is falsy. *)
Definition found_id (w : World) : result (option json) :=
  results ← find_results w;
  if truthy results
  then cred_id ← first_id results; mret (Some cred_id)
  else mret None.

Arguments parse_args : simpl never.
Arguments ensure_required : simpl never.
Arguments prompt_password : simpl never.
Arguments vault_login : simpl never.
Arguments read_role_id : simpl never.
Arguments find_credential : simpl never.
Arguments fetch_inputs : simpl never.
Arguments update_role_id : simpl never.

(** ** The monad *)

Lemma bind_return {A B} (a : A) (t : list event) (k : A → M B) :
  ((Return a, t) ≫= k) = (fst (k a), t ++ snd (k a)).
Proof. unfold mbind, M_bind. destruct (k a). reflexivity. Qed.

Lemma bind_exit {A B} (code : Z) (t : list event) (k : A → M B) :
  ((Exit code, t) ≫= k) = (Exit code, t).
Proof. reflexivity. Qed.

Lemma bind_raise {A B} (e : exn) (t : list event) (k : A → M B) :
  ((Raise e, t) ≫= k) = (Raise e, t).
Proof. reflexivity. Qed.

Lemma returns_eq {A} (m : M A) (a : A) :
  fst m = Return a → m = (Return a, snd m).
Proof. destruct m as [o t]. simpl. intros ->. reflexivity. Qed.

Lemma string_app_assoc (a b c : string) :
  (a +:+ b) +:+ c = a +:+ b +:+ c.
Proof.
  induction a as [|x a IH]; [reflexivity|].
  change (String x ((a +:+ b) +:+ c) = String x (a +:+ b +:+ c)).
  by rewrite IH.
Qed.

Lemma occurs_in_third (sub pre a b post : string) :
  occurs_in sub (pre +:+ a +:+ b +:+ sub +:+ post).
Proof.
  exists (pre +:+ a +:+ b), post. by rewrite !string_app_assoc.
Qed.

(** ** Step by step *)

Lemma present_Some (args : Namespace) (param : string) :
  present args param = true → ∃ s, getattr args param = Ok (Some s).
Proof.
  unfold present. destruct (getattr args param) as [[s|]|e]; try discriminate.
  eauto.
Qed.

Lemma getattr_required (args : Namespace) (param : string) :
  In param required → ∃ v, getattr args param = Ok v.
Proof.
  unfold required. simpl.
  intros H; repeat (destruct H as [<- | H]; [eexists; reflexivity|]).
  destruct H.
Qed.

Lemma ensure_required_present (args : Namespace) (params : list string) :
  forallb (present args) params = true →
  ensure_required args params = (Return tt, []).
Proof.
  induction params as [|param rest IH]; [reflexivity|].
  simpl. intros [Hp Hrest]%andb_prop.
  apply present_Some in Hp as [s Hs].
  unfold ensure_required; fold ensure_required.
  rewrite Hs. simpl. by rewrite IH.
Qed.

Lemma ensure_required_absent (args : Namespace)
    (pre : list string) (param : string) (post : list string) :
  forallb (present args) pre = true →
  getattr args param = Ok None →
  ensure_required args (pre ++ param :: post)
  = (Exit 1, [Stdout (missing_parameter_message param)]).
Proof.
  induction pre as [|p pre IH]; simpl.
  - intros _ Hq. unfold ensure_required; fold ensure_required.
    rewrite Hq. reflexivity.
  - intros [Hp Hpre]%andb_prop Hq.
    apply present_Some in Hp as [s Hs].
    unfold ensure_required; fold ensure_required.
    rewrite Hs. simpl. by rewrite IH.
Qed.

(** The loop stops at the first parameter without a value. *)
Lemma first_absent (args : Namespace) (params : list string) (param : string) :
  (∀ p, In p params → ∃ v, getattr args p = Ok v) →
  In param params → getattr args param = Ok None →
  ∃ pre q post,
    params = pre ++ q :: post ∧ forallb (present args) pre = true ∧
    getattr args q = Ok None ∧ (q = param ∨ In param post).
Proof.
  induction params as [|p rest IH]; [intros _ []|].
  intros Hok Hin Habs.
  destruct (Hok p (or_introl eq_refl)) as [[s|] Hp].
  - destruct Hin as [-> | Hin]; [congruence|].
    destruct IH as (pre & q & post & -> & Hpre & Hq & Hrel); auto.
    { intros p' Hp'. apply Hok. by right. }
    exists (p :: pre), q, post. repeat split; auto.
    simpl. unfold present at 1. by rewrite Hp.
  - exists [], p, rest. repeat split; auto.
Qed.

Lemma prompt_password_supplied (w : World) (args : Namespace)
    (c : ascii) (p : string) :
  password args = Some (String c p) →
  prompt_password w args = (Return (String c p), []).
Proof. unfold prompt_password. by intros ->. Qed.

Lemma prompt_password_prompted (w : World) (args : Namespace) :
  password args = None ∨ password args = Some "" →
  prompt_password w args = call (GetPass (getpass_prompt args)) (getpass_answer w).
Proof. unfold prompt_password. by intros [-> | ->]. Qed.

Lemma prompt_password_cases (w : World) (args : Namespace) :
  (∃ c p, password args = Some (String c p)) ∨
  (password args = None ∨ password args = Some "").
Proof. destruct (password args) as [[|c p]|]; eauto. Qed.

Lemma vault_login_ok (w : World) (args : Namespace) (verify_tls : bool)
    (login_pass : string) :
  vault_ok w →
  vault_login w args verify_tls login_pass
  = (Return tt,
     [VaultLogin (vault_addr args) verify_tls (username args) login_pass;
      VaultIsAuthenticated (vault_addr args)]).
Proof. intros [H1 H2]. unfold vault_login. rewrite H1, H2. reflexivity. Qed.

Lemma not_all_present (args : Namespace) (params : list string) :
  (∀ p, In p params → ∃ v, getattr args p = Ok v) →
  forallb (present args) params = false →
  ∃ p, In p params ∧ getattr args p = Ok None.
Proof.
  induction params as [|p rest IH]; [discriminate|].
  intros Hok Hall. destruct (Hok p (or_introl eq_refl)) as [[s|] Hp].
  - simpl in Hall. unfold present at 1 in Hall. rewrite Hp in Hall.
    destruct IH as (q & Hin & Hq); auto.
    { intros p' Hp'. apply Hok. by right. }
    exists q. split; [by right | exact Hq].
  - exists p. split; [by left | exact Hp].
Qed.

Lemma ensure_required_cases (args : Namespace) :
  (configured args = true ∧ ensure_required args required = (Return tt, [])) ∨
  (∃ q, In q required ∧ getattr args q = Ok None ∧
        ensure_required args required
        = (Exit 1, [Stdout (missing_parameter_message q)])).
Proof.
  destruct (configured args) eqn:Hc.
  - left. split; [reflexivity|]. by apply ensure_required_present.
  - right.
    destruct (not_all_present args required) as (p & Hin & Hp);
      auto using getattr_required.
    destruct (first_absent args required p)
      as (pre & q & post & Heq & Hpre & Hq & _);
      auto using getattr_required.
    exists q. split; [|split; [exact Hq|]].
    + rewrite Heq. apply in_or_app. right. by left.
    + rewrite Heq. by apply ensure_required_absent.
Qed.

Lemma vault_login_spec (w : World) (args : Namespace) (verify_tls : bool)
    (login_pass : string) :
  vault_login w args verify_tls login_pass
  = let login := VaultLogin (vault_addr args) verify_tls (username args)
                   login_pass in
    let check := VaultIsAuthenticated (vault_addr args) in
    match userpass_login_answer w with
    | Ok _ =>
        match is_authenticated_answer w with
        | Ok true => (Return tt, [login; check])
        | Ok false => (Exit 1, [login; check; Stdout vault_auth_failed_message])
        | Err e => (Exit 1, [login; check; Stdout (vault_auth_error_message e)])
        end
    | Err e => (Exit 1, [login; Stdout (vault_auth_error_message e)])
    end.
Proof.
  unfold vault_login.
  destruct (userpass_login_answer w) as [[]|e]; [|reflexivity].
  destruct (is_authenticated_answer w) as [[|]|e]; reflexivity.
Qed.

Lemma read_role_id_spec (w : World) (args : Namespace) :
  read_role_id w args
  = let read := VaultRead (vault_addr args) (vault_secret args) in
    match retrieved_secret w args with
    | Ok role_id =>
        if truthy role_id
        then (Return role_id, [read; Stdout retrieved_message])
        else (Exit 1, [read; Stdout (failed_to_retrieve_message args)])
    | Err e => (Exit 1, [read; Stdout (error_reading_message e)])
    end.
Proof.
  unfold read_role_id, retrieved_secret.
  destruct (read_secret_version_answer w) as [read_response|e]; [|reflexivity].
  simpl.
  destruct (secret_lookup read_response (key args) (subkey args))
    as [role_id|e]; [|reflexivity].
  simpl. destruct (truthy role_id); reflexivity.
Qed.

Lemma find_credential_spec (w : World) (args : Namespace) (session : Session)
    (verify_tls : bool) :
  find_credential w args session verify_tls
  = let search := HttpGet session (find_url args) verify_tls in
    match find_results w with
    | Ok results =>
        if truthy results
        then
          match first_id results with
          | Ok cred_id =>
              (Return cred_id, [search; Stdout (found_message args cred_id)])
          | Err e => (Exit 1, [search; Stdout (error_fetching_message e)])
          end
        else (Exit 1, [search; Stdout (not_found_message args)])
    | Err e => (Exit 1, [search; Stdout (error_fetching_message e)])
    end.
Proof.
  unfold find_credential, find_results.
  destruct (find_answer w) as [response|e]; [|reflexivity].
  simpl. destruct (results_of response) as [results|e]; [|reflexivity].
  simpl. destruct (truthy results); [|reflexivity].
  simpl. destruct (first_id results) as [cred_id|e]; reflexivity.
Qed.

Lemma fetch_inputs_spec (w : World) (session : Session) (cred_url : string)
    (verify_tls : bool) :
  fetch_inputs w session cred_url verify_tls
  = let fetch := HttpGet session cred_url verify_tls in
    match fetched_inputs w with
    | Ok current_inputs => (Return current_inputs, [fetch])
    | Err e => (Exit 1, [fetch; Stdout (failed_to_fetch_message e)])
    end.
Proof.
  unfold fetch_inputs, fetched_inputs.
  destruct (detail_answer w) as [cred_response|e]; [|reflexivity].
  simpl. destruct (inputs_of cred_response) as [current_inputs|e]; reflexivity.
Qed.

Lemma update_role_id_spec (w : World) (args : Namespace) (session : Session)
    (cred_url : string) (cred_id current_inputs role_id : json)
    (verify_tls : bool) :
  update_role_id w args session cred_url cred_id current_inputs role_id
    verify_tls
  = match setitem current_inputs "role_id" role_id with
    | Ok merged =>
        (Return tt,
         [HttpPatch session cred_url (patch_body merged) verify_tls;
          Stdout (update_report w args cred_id)])
    | Err e => (Raise e, [])
    end.
Proof.
  unfold update_role_id, update_report.
  destruct (setitem current_inputs "role_id" role_id) as [merged|e];
    [|reflexivity].
  simpl. destruct (patch_answer w) as [patch_resp|e]; [|reflexivity].
  simpl.
  destruct ((status_code patch_resp =? 200) || (status_code patch_resp =? 202))%Z;
    reflexivity.
Qed.

(** ** Whole runs *)

Lemma run_reaches_update (argv : CommandLine) (environ : gmap string string)
    (w : World) (login_pass : string) (role_id cred_id : json)
    (inputs : gmap string json) :
  let args := parse_args argv environ in
  reaches_update argv environ w login_pass role_id cred_id inputs →
  run argv environ w
  = (0%Z,
     trace_to_fetch argv environ w login_pass cred_id ++
     [HttpPatch (new_session w args login_pass) (cred_url_of args cred_id)
        (patch_body (JObj (<["role_id" := role_id]> inputs)))
        (negb (no_verify_tls args));
      Stdout (update_report w args cred_id)]).
Proof.
  intros args ((((Hconf & Hpass & Hvault) & Hsecret & Htruthy)
                & results & Hfind & Hres & Hid) & Hinputs).
  fold args in Hconf, Hpass, Hsecret.
  unfold run, main. fold args.
  rewrite (ensure_required_present _ _ Hconf).
  rewrite (returns_eq _ _ Hpass).
  simpl. rewrite (vault_login_ok _ _ _ _ Hvault).
  rewrite read_role_id_spec, Hsecret, Htruthy.
  simpl. rewrite find_credential_spec, Hfind, Hres, Hid.
  simpl. rewrite fetch_inputs_spec, Hinputs.
  simpl. rewrite update_role_id_spec.
  simpl. unfold trace_to_fetch, trace_to_find, trace_to_read.
  rewrite <- !app_assoc. reflexivity.
Qed.

Lemma run_reaches_fetch (argv : CommandLine) (environ : gmap string string)
    (w : World) (login_pass : string) (role_id cred_id : json) :
  let args := parse_args argv environ in
  reaches_fetch argv environ w login_pass role_id cred_id →
  run argv environ w
  = match fetched_inputs w with
    | Ok current_inputs =>
        match setitem current_inputs "role_id" role_id with
        | Ok merged =>
            (0%Z,
             trace_to_fetch argv environ w login_pass cred_id ++
             [HttpPatch (new_session w args login_pass)
                (cred_url_of args cred_id) (patch_body merged)
                (negb (no_verify_tls args));
              Stdout (update_report w args cred_id)])
        | Err e =>
            (1%Z,
             trace_to_fetch argv environ w login_pass cred_id ++ [Traceback e])
        end
    | Err e =>
        (1%Z,
         trace_to_fetch argv environ w login_pass cred_id ++
         [Stdout (failed_to_fetch_message e)])
    end.
Proof.
  intros args (((Hconf & Hpass & Hvault) & Hsecret & Htruthy)
               & results & Hfind & Hres & Hid).
  fold args in Hconf, Hpass, Hsecret.
  unfold run, main. fold args.
  rewrite (ensure_required_present _ _ Hconf).
  rewrite (returns_eq _ _ Hpass).
  simpl. rewrite (vault_login_ok _ _ _ _ Hvault).
  rewrite read_role_id_spec, Hsecret, Htruthy.
  simpl. rewrite find_credential_spec, Hfind, Hres, Hid.
  simpl. rewrite fetch_inputs_spec.
  unfold trace_to_fetch, trace_to_find, trace_to_read.
  destruct (fetched_inputs w) as [current_inputs|e]; simpl.
  - rewrite update_role_id_spec.
    destruct (setitem current_inputs "role_id" role_id) as [merged|e]; simpl;
      rewrite <- !app_assoc; reflexivity.
  - rewrite <- !app_assoc. reflexivity.
Qed.

Lemma run_not_found (argv : CommandLine) (environ : gmap string string)
    (w : World) (login_pass : string) (role_id results : json) :
  let args := parse_args argv environ in
  reaches_find argv environ w login_pass role_id →
  find_results w = Ok results → truthy results = false →
  run argv environ w
  = (1%Z,
     trace_to_find argv environ w login_pass ++
     [Stdout (not_found_message args)]).
Proof.
  intros args ((Hconf & Hpass & Hvault) & Hsecret & Htruthy) Hfind Hres.
  fold args in Hconf, Hpass, Hsecret.
  unfold run, main. fold args.
  rewrite (ensure_required_present _ _ Hconf).
  rewrite (returns_eq _ _ Hpass).
  simpl. rewrite (vault_login_ok _ _ _ _ Hvault).
  rewrite read_role_id_spec, Hsecret, Htruthy.
  simpl. rewrite find_credential_spec, Hfind, Hres.
  unfold trace_to_find, trace_to_read. simpl.
  rewrite <- !app_assoc. reflexivity.
Qed.

Lemma run_reaches_read (argv : CommandLine) (environ : gmap string string)
    (w : World) (login_pass : string) :
  let args := parse_args argv environ in
  reaches_read argv environ w login_pass →
  (∀ role_id, retrieved_secret w args = Ok role_id → truthy role_id = false) →
  run argv environ w
  = (1%Z,
     trace_to_read argv environ w login_pass ++
     [Stdout match retrieved_secret w args with
             | Ok _ => failed_to_retrieve_message args
             | Err e => error_reading_message e
             end]).
Proof.
  intros args (Hconf & Hpass & Hvault) Hstop.
  fold args in Hconf, Hpass.
  unfold run, main. fold args.
  rewrite (ensure_required_present _ _ Hconf).
  rewrite (returns_eq _ _ Hpass).
  simpl. rewrite (vault_login_ok _ _ _ _ Hvault).
  rewrite read_role_id_spec.
  unfold trace_to_read.
  destruct (retrieved_secret w args) as [role_id|e]; simpl.
  - rewrite (Hstop role_id eq_refl). simpl.
    rewrite <- !app_assoc. reflexivity.
  - rewrite <- !app_assoc. reflexivity.
Qed.

Lemma prompt_password_events (w : World) (args : Namespace) (ev : event) :
  In ev (snd (prompt_password w args)) →
  ev = GetPass (getpass_prompt args) ∧
  (password args = None ∨ password args = Some "").
Proof.
  destruct (prompt_password_cases w args) as [(c & p & H) | H].
  - rewrite (prompt_password_supplied _ _ _ _ H). intros [].
  - rewrite (prompt_password_prompted _ _ H).
    destruct (getpass_answer w); simpl; intros [<- | []]; auto.
Qed.

Lemma prompt_password_no_exit (w : World) (args : Namespace) (code : Z) :
  fst (prompt_password w args) ≠ Exit code.
Proof.
  destruct (prompt_password_cases w args) as [(c & p & H) | H].
  - by rewrite (prompt_password_supplied _ _ _ _ H).
  - rewrite (prompt_password_prompted _ _ H). by destruct (getpass_answer w).
Qed.

Lemma setitem_Ok (v : json) (k : string) (x merged : json) :
  setitem v k x = Ok merged →
  ∃ m, v = JObj m ∧ merged = JObj (<[k := x]> m).
Proof. destruct v; simpl; intros [= <-]; eauto. Qed.

(** Every event of every run is one of [emitted]. *)
Lemma trace_emitted (argv : CommandLine) (environ : gmap string string)
    (w : World) (ev : event) :
  In ev (trace argv environ w) → emitted argv environ w ev.
Proof.
  set (args := parse_args argv environ).
  unfold trace, run, main. fold args.
  destruct (ensure_required_cases args) as [[Hconf ->] | (q & _ & _ & ->)];
    [|simpl; intros [<- | []]; constructor].
  destruct (prompt_password w args) as [[login_pass|code|e] tp] eqn:Hprompt;
    [| by destruct (prompt_password_no_exit w args code); rewrite Hprompt |].
  2: { simpl. intros [Hev | [<- | []]]%in_app_or.
       - destruct (prompt_password_events w args ev) as [-> ?];
           [by rewrite Hprompt|]. by constructor.
       - constructor. }
  assert (password_obtained w args login_pass) as Hpass
    by (unfold password_obtained; by rewrite Hprompt).
  assert (∀ ev, In ev tp → emitted argv environ w ev) as Htp.
  { intros ev' Hev'. destruct (prompt_password_events w args ev') as [-> ?];
      [by rewrite Hprompt|]. by constructor. }
  simpl. rewrite vault_login_spec.
  destruct (userpass_login_answer w) as [[]|e] eqn:Hlogin.
  2: { simpl. intros [? | [<- | [<- | []]]]%in_app_or;
         auto; by constructor. }
  destruct (is_authenticated_answer w) as [[|]|e] eqn:Hauth.
  2, 3: simpl; intros [? | [<- | [<- | [<- | []]]]]%in_app_or;
          auto; by constructor.
  assert (reaches_read argv environ w login_pass) as Hread
    by (repeat split; assumption).
  simpl. rewrite read_role_id_spec.
  destruct (retrieved_secret w args) as [role_id|e] eqn:Hsecret.
  2: { simpl. intros [? | [<- | [<- | [<- | [<- | []]]]]]%in_app_or;
         auto; by constructor. }
  destruct (truthy role_id) eqn:Htruthy.
  2: { simpl. intros [? | [<- | [<- | [<- | [<- | []]]]]]%in_app_or;
         auto; by constructor. }
  assert (reaches_find argv environ w login_pass role_id) as Hfind
    by (repeat split; assumption).
  simpl. rewrite find_credential_spec.
  assert (∀ t line, In ev (tp ++
            [VaultLogin (vault_addr args) (negb (no_verify_tls args))
               (username args) login_pass;
             VaultIsAuthenticated (vault_addr args);
             VaultRead (vault_addr args) (vault_secret args);
             Stdout line;
             HttpGet (new_session w args login_pass) (find_url args)
               (negb (no_verify_tls args))] ++ t) →
          (In ev t → emitted argv environ w ev) →
          emitted argv environ w ev) as Hpre.
  { intros t line [? | [[<- | [<- | [<- | [<- | [<- | []]]]]] | ?]%in_app_or]%in_app_or Ht;
      auto; try by constructor.
    by apply (emitted_find _ _ _ login_pass role_id). }
  destruct (find_results w) as [results|e] eqn:Hresults.
  2: { simpl. intros Hev. apply (Hpre [Stdout (error_fetching_message e)] retrieved_message).
       - exact Hev.
       - intros [<- | []]. constructor. }
  destruct (truthy results) eqn:Hres.
  2: { simpl. intros Hev. apply (Hpre [Stdout (not_found_message args)] retrieved_message).
       - exact Hev.
       - intros [<- | []]. constructor. }
  destruct (first_id results) as [cred_id|e] eqn:Hid.
  2: { simpl. intros Hev. apply (Hpre [Stdout (error_fetching_message e)] retrieved_message).
       - exact Hev.
       - intros [<- | []]. constructor. }
  assert (reaches_fetch argv environ w login_pass role_id cred_id) as Hfetch
    by (split; [assumption | eauto]).
  simpl. rewrite fetch_inputs_spec.
  destruct (fetched_inputs w) as [current_inputs|e] eqn:Hinputs.
  2: { simpl. intros Hev.
       apply (Hpre [Stdout (found_message args cred_id);
                    HttpGet (new_session w args login_pass)
                      (cred_url_of args cred_id) (negb (no_verify_tls args));
                    Stdout (failed_to_fetch_message e)] retrieved_message).
       - exact Hev.
       - intros [<- | [<- | [<- | []]]]; try by constructor.
         by apply (emitted_fetch _ _ _ login_pass role_id cred_id). }
  simpl. rewrite update_role_id_spec.
  destruct (setitem current_inputs "role_id" role_id) as [merged|e] eqn:Hset.
  - apply setitem_Ok in Hset as (inputs & -> & ->).
    simpl. intros Hev.
    apply (Hpre [Stdout (found_message args cred_id);
                 HttpGet (new_session w args login_pass)
                   (cred_url_of args cred_id) (negb (no_verify_tls args));
                 HttpPatch (new_session w args login_pass)
                   (cred_url_of args cred_id)
                   (patch_body (JObj (<["role_id" := role_id]> inputs)))
                   (negb (no_verify_tls args));
                 Stdout (update_report w args cred_id)] retrieved_message).
    + exact Hev.
    + intros [<- | [<- | [<- | [<- | []]]]]; try by constructor.
      by apply (emitted_fetch _ _ _ login_pass role_id cred_id).
  - simpl. intros Hev.
    apply (Hpre [Stdout (found_message args cred_id);
                 HttpGet (new_session w args login_pass)
                   (cred_url_of args cred_id) (negb (no_verify_tls args));
                 Traceback e] retrieved_message).
    + rewrite <- app_assoc in Hev. exact Hev.
    + intros [<- | [<- | [<- | []]]]; try by constructor.
      by apply (emitted_fetch _ _ _ login_pass role_id cred_id).
Qed.

(** ** What the traces up to each step contain *)

Lemma patch_bodies_app (t1 t2 : list event) :
  patch_bodies (t1 ++ t2) = patch_bodies t1 ++ patch_bodies t2.
Proof. unfold patch_bodies. apply omap_app. Qed.

Lemma platform_calls_app (t1 t2 : list event) :
  platform_calls (t1 ++ t2) = platform_calls t1 ++ platform_calls t2.
Proof. unfold platform_calls. apply List.filter_app. Qed.

Lemma prompt_password_trace (w : World) (args : Namespace) :
  snd (prompt_password w args) = [] ∨
  snd (prompt_password w args) = [GetPass (getpass_prompt args)].
Proof.
  destruct (prompt_password_cases w args) as [(c & p & H) | H].
  - left. by rewrite (prompt_password_supplied _ _ _ _ H).
  - right. rewrite (prompt_password_prompted _ _ H).
    by destruct (getpass_answer w).
Qed.

Lemma patch_bodies_to_fetch (argv : CommandLine) (environ : gmap string string)
    (w : World) (login_pass : string) (cred_id : json) :
  patch_bodies (trace_to_fetch argv environ w login_pass cred_id) = [].
Proof.
  unfold trace_to_fetch, trace_to_find, trace_to_read.
  rewrite !patch_bodies_app.
  by destruct (prompt_password_trace w (parse_args argv environ)) as [-> | ->].
Qed.

Lemma platform_calls_to_read (argv : CommandLine) (environ : gmap string string)
    (w : World) (login_pass : string) :
  platform_calls (trace_to_read argv environ w login_pass) = [].
Proof.
  unfold trace_to_read. rewrite platform_calls_app.
  by destruct (prompt_password_trace w (parse_args argv environ)) as [-> | ->].
Qed.

Lemma platform_calls_to_find (argv : CommandLine) (environ : gmap string string)
    (w : World) (login_pass : string) :
  let args := parse_args argv environ in
  platform_calls (trace_to_find argv environ w login_pass)
  = [HttpGet (new_session w args login_pass) (find_url args)
       (negb (no_verify_tls args))].
Proof.
  unfold trace_to_find. rewrite platform_calls_app, platform_calls_to_read.
  reflexivity.
Qed.

Lemma platform_calls_to_fetch (argv : CommandLine)
    (environ : gmap string string) (w : World) (login_pass : string)
    (cred_id : json) :
  let args := parse_args argv environ in
  platform_calls (trace_to_fetch argv environ w login_pass cred_id)
  = [HttpGet (new_session w args login_pass) (find_url args)
       (negb (no_verify_tls args));
     HttpGet (new_session w args login_pass) (cred_url_of args cred_id)
       (negb (no_verify_tls args))].
Proof.
  unfold trace_to_fetch. rewrite platform_calls_app, platform_calls_to_find.
  reflexivity.
Qed.

Lemma last_two {A} (l : list A) (x y : A) : last (l ++ [x; y]) = Some y.
Proof. change [x; y] with ([x] ++ [y]). by rewrite app_assoc, last_snoc. Qed.

(** ** The update *)

(** C1, amended.  The field mapping that the update submits, under the key
    "inputs" of the PATCH body, is the fetched mapping with "role_id" bound
    to the retrieved value: every other key keeps its value, and no other
    key is added.  (The claim has the mapping itself as the body.) *)
Theorem C1_merge_preserves_fields (argv : CommandLine)
    (environ : gmap string string) (w : World) (login_pass : string)
    (role_id cred_id : json) (inputs : gmap string json) :
  reaches_update argv environ w login_pass role_id cred_id inputs →
  ∃ merged : gmap string json,
    patch_bodies (trace argv environ w) = [JObj {["inputs" := JObj merged]}] ∧
    merged !! "role_id" = Some role_id ∧
    ∀ k, k ≠ "role_id" → merged !! k = inputs !! k.
Proof.
  intros Hreach. exists (<["role_id" := role_id]> inputs).
  unfold trace. rewrite (run_reaches_update _ _ _ _ _ _ _ Hreach). simpl.
  rewrite patch_bodies_app, patch_bodies_to_fetch. split; [reflexivity|].
  split; [apply lookup_insert_eq|].
  intros k Hk. by apply lookup_insert_ne.
Qed.

(** C5.  When the update call answers with a status other than 200 and 202,
    the last line printed is the failure line, which carries the status code
    and the text of the response, and the process still ends with status 0. *)
Theorem C5_update_failure_reported (argv : CommandLine)
    (environ : gmap string string) (w : World) (login_pass : string)
    (role_id cred_id : json) (inputs : gmap string json)
    (patch_resp : response) :
  reaches_update argv environ w login_pass role_id cred_id inputs →
  patch_answer w = Ok patch_resp →
  status_code patch_resp ≠ 200%Z → status_code patch_resp ≠ 202%Z →
  exit_code argv environ w = 0%Z ∧
  last (trace argv environ w)
  = Some (Stdout ("❌ Failed to update credential: "
                    +:+ pretty (status_code patch_resp) +:+ " "
                    +:+ text patch_resp)).
Proof.
  intros Hreach Hpatch H200 H202.
  unfold exit_code, trace. rewrite (run_reaches_update _ _ _ _ _ _ _ Hreach).
  simpl. split; [reflexivity|].
  rewrite last_two. unfold update_report. rewrite Hpatch.
  apply Z.eqb_neq in H200, H202. rewrite H200, H202. reflexivity.
Qed.

(** C6.  When every step succeeds and the update call answers 200, the
    process ends with status 0 and the last line printed is the success
    line, in which the name of the credential and the decimal numeral of its
    identifier occur. *)
Theorem C6_success (argv : CommandLine) (environ : gmap string string)
    (w : World) (login_pass : string) (role_id : json) (n : Z)
    (inputs : gmap string json) (name : string) (patch_resp : response) :
  let args := parse_args argv environ in
  reaches_update argv environ w login_pass role_id (JInt n) inputs →
  cred_name args = Some name →
  patch_answer w = Ok patch_resp → status_code patch_resp = 200%Z →
  exit_code argv environ w = 0%Z ∧
  ∃ line,
    last (trace argv environ w) = Some (Stdout line) ∧
    line = success_message args (JInt n) ∧
    occurs_in name line ∧ occurs_in (pretty n) line.
Proof.
  intros args Hreach Hname Hpatch H200.
  unfold exit_code, trace. rewrite (run_reaches_update _ _ _ _ _ _ _ Hreach).
  simpl. split; [reflexivity|].
  exists (success_message args (JInt n)).
  rewrite last_two. unfold update_report. fold args.
  rewrite Hpatch, H200. simpl. split; [reflexivity|]. split; [reflexivity|].
  unfold success_message. rewrite Hname. simpl. split.
  - by eexists _, _.
  - apply occurs_in_third.
Qed.

(** C10.  When the fetched document is a mapping without the key "inputs",
    the run goes on: the merge starts from the empty mapping, the one PATCH
    body is {"inputs": {"role_id": value}}, and the status is 0. *)
Theorem C10_no_inputs_key (argv : CommandLine) (environ : gmap string string)
    (w : World) (login_pass : string) (role_id cred_id : json)
    (cred_response : response) (document : gmap string json) :
  reaches_fetch argv environ w login_pass role_id cred_id →
  detail_answer w = Ok cred_response →
  raise_for_status cred_response = Ok tt →
  json_body cred_response = Ok (JObj document) →
  document !! "inputs" = None →
  exit_code argv environ w = 0%Z ∧
  patch_bodies (trace argv environ w)
  = [JObj {["inputs" := JObj {["role_id" := role_id]}]}].
Proof.
  intros Hreach Hdetail Hstatus Hbody Hnone.
  assert (fetched_inputs w = Ok (JObj ∅)) as Hinputs.
  { unfold fetched_inputs, inputs_of. rewrite Hdetail. simpl.
    rewrite Hstatus. simpl. rewrite Hbody. simpl. by rewrite Hnone. }
  unfold exit_code, trace.
  rewrite (run_reaches_update _ _ _ _ _ _ ∅ (conj Hreach Hinputs)). simpl.
  split; [reflexivity|].
  rewrite patch_bodies_app, patch_bodies_to_fetch. reflexivity.
Qed.

(** ** Configuration *)

(** C2, amended.  When a required parameter has no value after flags and
    environment, the run prints one line, the missing-parameter message of
    the first required parameter without a value, and exits with status 1
    without any network call.  That parameter is the given one whenever all
    the other required parameters have values; otherwise it may be an
    earlier one, and the given one is not named. *)
Theorem C2_missing_required_parameter (argv : CommandLine)
    (environ : gmap string string) (w : World) (param : string) :
  let args := parse_args argv environ in
  In param required → getattr args param = Ok None →
  ∃ pre q post,
    required = pre ++ q :: post ∧
    forallb (present args) pre = true ∧ getattr args q = Ok None ∧
    (q = param ∨ In param post) ∧
    ((∀ p, In p required → p ≠ param → present args p = true) → q = param) ∧
    run argv environ w = (1%Z, [Stdout (missing_parameter_message q)]) ∧
    network_calls (trace argv environ w) = [].
Proof.
  intros args Hin Habs.
  destruct (first_absent args required param)
    as (pre & q & post & Heq & Hpre & Hq & Hrel);
    auto using getattr_required.
  assert (run argv environ w = (1%Z, [Stdout (missing_parameter_message q)]))
    as Hrun.
  { unfold run, main. fold args. rewrite Heq.
    by rewrite (ensure_required_absent _ _ _ _ Hpre Hq). }
  exists pre, q, post. repeat split; auto.
  - intros Hothers. destruct (String.eq_dec q param) as [|Hne]; [assumption|].
    assert (present args q = true) as Hpresent.
    { apply Hothers; [|exact Hne]. rewrite Heq. apply in_or_app. right. by left. }
    unfold present in Hpresent. by rewrite Hq in Hpresent.
  - unfold trace. by rewrite Hrun.
Qed.

(** ** The secret *)

Lemma secret_document_response (secret_data : json) :
  secret_document (secret_response secret_data) = Ok secret_data.
Proof.
  unfold secret_document, secret_response, getitem. rewrite lookup_singleton_eq.
  simpl. by rewrite lookup_singleton_eq.
Qed.

Lemma two_level_lookup_empty (key subkey : option string) :
  two_level_lookup (JObj ∅) key subkey = Ok JNull.
Proof.
  unfold two_level_lookup, get.
  destruct key as [k|]; simpl; rewrite ?lookup_empty; simpl;
    destruct subkey as [sk|]; simpl; by rewrite ?lookup_empty.
Qed.

Lemma written_role_id_patch_body (role_id : json) (inputs : gmap string json) :
  written_role_id (patch_body (JObj (<["role_id" := role_id]> inputs)))
  = Some role_id.
Proof.
  unfold written_role_id, patch_body. rewrite lookup_singleton_eq.
  apply lookup_insert_eq.
Qed.

(** C3.  When the secret document does not give a value under the key and
    then the subkey (the lookup gives None, or cannot be made), the run
    ends with status 1, its last line is one of the two lines of the secret
    read, and no request goes to the platform. *)
Theorem C3_secret_not_found (argv : CommandLine) (environ : gmap string string)
    (w : World) (login_pass : string) (read_response secret_data : json) :
  let args := parse_args argv environ in
  reaches_read argv environ w login_pass →
  read_secret_version_answer w = Ok read_response →
  secret_document read_response = Ok secret_data →
  (two_level_lookup secret_data (key args) (subkey args) = Ok JNull ∨
   ∃ e, two_level_lookup secret_data (key args) (subkey args) = Err e) →
  exit_code argv environ w = 1%Z ∧
  (∃ line, last (trace argv environ w) = Some (Stdout line) ∧
           secret_not_found_line args line) ∧
  platform_calls (trace argv environ w) = [].
Proof.
  intros args Hreach Hread Hdoc Hlookup.
  assert (retrieved_secret w args
          = two_level_lookup secret_data (key args) (subkey args)) as Hsecret.
  { unfold retrieved_secret, secret_lookup. rewrite Hread. simpl.
    by rewrite Hdoc. }
  unfold exit_code, trace. rewrite (run_reaches_read _ _ _ _ Hreach).
  - fold args. simpl. split; [reflexivity|]. split.
    + eexists. split; [apply last_snoc|]. rewrite Hsecret.
      destruct Hlookup as [-> | [e ->]]; [by left | right; eauto].
    + rewrite platform_calls_app, platform_calls_to_read. reflexivity.
  - fold args. rewrite Hsecret. intros role_id Hrole.
    destruct Hlookup as [H | [e H]]; rewrite H in Hrole; by inversion Hrole.
Qed.

(** C8.  When the lookup gives a falsy value (among them the empty string,
    0, false, None and the empty mapping), the run is the same, event for
    event, as with an empty secret document: it ends with the
    failed-to-retrieve line and status 1.  And in every run, whatever a
    PATCH writes under "role_id" is truthy. *)
Theorem C8_falsy_secret_rejected :
  (∀ (argv : CommandLine) (environ : gmap string string) (w : World)
     (login_pass : string) (read_response secret_data role_id : json),
     let args := parse_args argv environ in
     reaches_read argv environ w login_pass →
     read_secret_version_answer w = Ok read_response →
     secret_document read_response = Ok secret_data →
     two_level_lookup secret_data (key args) (subkey args) = Ok role_id →
     truthy role_id = false →
     exit_code argv environ w = 1%Z ∧
     last (trace argv environ w)
     = Some (Stdout (failed_to_retrieve_message args)) ∧
     run argv environ w
     = run argv environ (with_secret w (Ok (secret_response (JObj ∅))))) ∧
  (∀ (argv : CommandLine) (environ : gmap string string) (w : World)
     (s : Session) (url : string) (body : json) (verify : bool),
     In (HttpPatch s url body verify) (trace argv environ w) →
     ∃ role_id, written_role_id body = Some role_id ∧ truthy role_id = true) ∧
  Forall (λ v, truthy v = false)
    [JStr ""; JInt 0; JBool false; JNull; JObj ∅; JList []].
Proof.
  split; [|split].
  - intros argv environ w login_pass read_response secret_data role_id args
      Hreach Hread Hdoc Hlookup Hfalsy.
    assert (retrieved_secret w args = Ok role_id) as Hsecret.
    { unfold retrieved_secret, secret_lookup. rewrite Hread. simpl.
      by rewrite Hdoc. }
    assert (run argv environ w
            = (1%Z, trace_to_read argv environ w login_pass ++
                    [Stdout (failed_to_retrieve_message args)])) as Hrun.
    { rewrite (run_reaches_read _ _ _ _ Hreach); fold args.
      - by rewrite Hsecret.
      - rewrite Hsecret. by intros ? [= <-]. }
    unfold exit_code, trace. rewrite Hrun. simpl.
    split; [reflexivity|]. split; [apply last_snoc|].
    symmetry.
    rewrite (run_reaches_read _ _ (with_secret w _) login_pass); fold args.
    + unfold retrieved_secret, secret_lookup. simpl.
      rewrite secret_document_response. simpl.
      by rewrite two_level_lookup_empty.
    + exact Hreach.
    + unfold retrieved_secret, secret_lookup. simpl.
      rewrite secret_document_response. simpl.
      rewrite two_level_lookup_empty. by intros ? [= <-].
  - intros argv environ w s url body verify Hin.
    apply trace_emitted in Hin. inversion Hin as [| | | | | | | |
      login_pass role_id cred_id inputs Hreach]; subst.
    exists role_id. split; [apply written_role_id_patch_body|].
    by destruct Hreach as [[[_ [_ Htruthy]] _] _].
  - repeat constructor.
Qed.

(** ** The record *)

(** C4.  When the search by name gives no record, the run ends with the
    not-found line and status 1, and the search is the only request the
    platform receives: no fetch and no update. *)
Theorem C4_record_not_found (argv : CommandLine) (environ : gmap string string)
    (w : World) (login_pass : string) (role_id : json) :
  let args := parse_args argv environ in
  reaches_find argv environ w login_pass role_id →
  find_results w = Ok (JList []) →
  exit_code argv environ w = 1%Z ∧
  last (trace argv environ w) = Some (Stdout (not_found_message args)) ∧
  platform_calls (trace argv environ w)
  = [HttpGet (new_session w args login_pass) (find_url args)
       (negb (no_verify_tls args))].
Proof.
  intros args Hreach Hfind.
  unfold exit_code, trace.
  rewrite (run_not_found _ _ _ _ _ _ Hreach Hfind eq_refl). simpl.
  split; [reflexivity|]. split; [apply last_snoc|].
  rewrite platform_calls_app, platform_calls_to_find. reflexivity.
Qed.


(** ** The password *)

Lemma trace_starts_with_prompt (argv : CommandLine)
    (environ : gmap string string) (w : World) :
  let args := parse_args argv environ in
  configured args = true →
  ∃ rest, trace argv environ w = snd (prompt_password w args) ++ rest.
Proof.
  intros args Hconf. unfold trace, run, main. fold args.
  rewrite (ensure_required_present _ _ Hconf).
  destruct (prompt_password w args) as [[login_pass|code|e] tp].
  - rewrite bind_return, bind_return. simpl.
    match goal with |- context [fst ?m] => destruct m as [[[]|code|e] t] end;
      simpl; [by eexists .. | ].
    exists (t ++ [Traceback e]). by rewrite app_assoc.
  - simpl. exists []. by rewrite app_nil_r.
  - simpl. by eexists.
Qed.

Lemma trace_not_configured (argv : CommandLine) (environ : gmap string string)
    (w : World) :
  configured (parse_args argv environ) = false →
  ∃ line, trace argv environ w = [Stdout line].
Proof.
  intros Hconf. unfold trace, run, main.
  destruct (ensure_required_cases (parse_args argv environ))
    as [[Hc _] | (q & _ & _ & ->)]; [congruence|].
  by eexists.
Qed.

Lemma password_obtained_cases (w : World) (args : Namespace) (p : string) :
  password_obtained w args p →
  (password args = Some p ∧ p ≠ "") ∨
  ((password args = None ∨ password args = Some "") ∧
   getpass_answer w = Ok p ∧
   snd (prompt_password w args) = [GetPass (getpass_prompt args)]).
Proof.
  unfold password_obtained.
  destruct (prompt_password_cases w args) as [(c & s & H) | H].
  - rewrite (prompt_password_supplied _ _ _ _ H). simpl. intros [= <-].
    by left.
  - rewrite (prompt_password_prompted _ _ H).
    destruct (getpass_answer w) as [a|e]; simpl; [|discriminate].
    intros [= <-]. by right.
Qed.

Lemma password_of_emitted (argv : CommandLine) (environ : gmap string string)
    (w : World) (ev : event) (p : string) :
  emitted argv environ w ev → password_of ev = Some p →
  password_obtained w (parse_args argv environ) p.
Proof.
  intros Hev. destruct Hev as [| | | ? Hp | | | ? ? H | ? ? ? H | ? ? ? ? H];
    simpl; intros [= <-] || discriminate.
  - exact Hp.
  - by destruct H as [[_ [Hp _]] _].
  - by destruct H as [[[_ [Hp _]] _] _].
  - by destruct H as [[[[_ [Hp _]] _] _] _].
Qed.

Lemma passwords_used_obtained (argv : CommandLine)
    (environ : gmap string string) (w : World) (p : string) :
  In p (passwords_used (trace argv environ w)) →
  password_obtained w (parse_args argv environ) p.
Proof.
  unfold passwords_used. rewrite <- list_elem_of_In, list_elem_of_omap.
  intros (ev & Hin & Hp). apply list_elem_of_In in Hin.
  eauto using password_of_emitted, trace_emitted.
Qed.

Lemma parse_args_without_password (argv : CommandLine)
    (environ : gmap string string) :
  parse_args (without_password_flag argv) (delete "VAULT_PASSWORD" environ)
  = let args := parse_args argv environ in
    {| vault_addr := vault_addr args;
       vault_secret := vault_secret args;
       key := key args;
       subkey := subkey args;
       awx_url := awx_url args;
       cred_name := cred_name args;
       username := username args;
       password := None;
       no_verify_tls := no_verify_tls args |}.
Proof.
  unfold parse_args, add_argument, getenv. simpl.
  rewrite lookup_delete_eq. by rewrite !lookup_delete_ne.
Qed.

(** An empty password and an absent one give the same run. *)
Lemma run_empty_password (argv : CommandLine) (environ : gmap string string)
    (w : World) :
  password (parse_args argv environ) = Some "" →
  run argv environ w
  = run (without_password_flag argv) (delete "VAULT_PASSWORD" environ) w.
Proof.
  intros Hpw. unfold run, main. rewrite parse_args_without_password.
  destruct (parse_args argv environ); simpl in Hpw; subst. reflexivity.
Qed.

(** ** Runs that stop early *)

Lemma stdout_lines_app (t1 t2 : list event) :
  stdout_lines (t1 ++ t2) = stdout_lines t1 ++ stdout_lines t2.
Proof. unfold stdout_lines. apply omap_app. Qed.

Lemma prompt_password_quiet (w : World) (args : Namespace) :
  let tp := snd (prompt_password w args) in
  patch_bodies tp = [] ∧ platform_calls tp = [] ∧
  List.filter is_vault_read tp = [] ∧ network_calls tp = [] ∧
  stdout_lines tp = [].
Proof.
  intros tp. unfold tp.
  by destruct (prompt_password_trace w args) as [-> | ->].
Qed.

Lemma run_login_refused (argv : CommandLine) (environ : gmap string string)
    (w : World) (login_pass : string) :
  let args := parse_args argv environ in
  configured args = true → password_obtained w args login_pass →
  (∃ e, userpass_login_answer w = Err e) ∨
  is_authenticated_answer w = Ok false ∨
  (∃ e, is_authenticated_answer w = Err e) →
  ∃ calls,
    run argv environ w
    = (1%Z, snd (prompt_password w args) ++ calls
            ++ [Stdout (vault_failure_line w)]) ∧
    Forall (λ ev, is_vault_call ev = true ∧ is_vault_read ev = false) calls.
Proof.
  intros args Hconf Hpass Hrefused.
  unfold run, main. fold args.
  rewrite (ensure_required_present _ _ Hconf).
  rewrite (returns_eq _ _ Hpass).
  simpl. rewrite vault_login_spec. unfold vault_failure_line.
  destruct (userpass_login_answer w) as [[]|e] eqn:Hlogin.
  - destruct (is_authenticated_answer w) as [[|]|e] eqn:Hauth.
    + exfalso. destruct Hrefused as [[e He] | [H | [e He]]]; discriminate.
    + simpl. eexists [_; _]. split; [reflexivity|]. by repeat constructor.
    + simpl. eexists [_; _]. split; [reflexivity|]. by repeat constructor.
  - simpl. eexists [_]. split; [reflexivity|]. by repeat constructor.
Qed.

Lemma found_id_Some (w : World) (cred_id : json) :
  found_id w = Ok (Some cred_id) →
  ∃ results, find_results w = Ok results ∧ truthy results = true ∧
             first_id results = Ok cred_id.
Proof.
  unfold found_id. destruct (find_results w) as [results|e]; [|discriminate].
  simpl. destruct (truthy results) eqn:Hres; [|discriminate].
  destruct (first_id results) as [c|e] eqn:Hid; [|discriminate].
  simpl. intros [= <-]. exists results. by repeat split.
Qed.

(** Everything a run can do once the secret is retrieved. *)
Lemma run_reaches_find (argv : CommandLine) (environ : gmap string string)
    (w : World) (login_pass : string) (role_id : json) :
  let args := parse_args argv environ in
  reaches_find argv environ w login_pass role_id →
  run argv environ w
  = match found_id w with
    | Ok (Some cred_id) =>
        match fetched_inputs w with
        | Ok current_inputs =>
            match setitem current_inputs "role_id" role_id with
            | Ok merged =>
                (0%Z,
                 trace_to_fetch argv environ w login_pass cred_id ++
                 [HttpPatch (new_session w args login_pass)
                    (cred_url_of args cred_id) (patch_body merged)
                    (negb (no_verify_tls args));
                  Stdout (update_report w args cred_id)])
            | Err e =>
                (1%Z,
                 trace_to_fetch argv environ w login_pass cred_id
                 ++ [Traceback e])
            end
        | Err e =>
            (1%Z,
             trace_to_fetch argv environ w login_pass cred_id ++
             [Stdout (failed_to_fetch_message e)])
        end
    | Ok None =>
        (1%Z,
         trace_to_find argv environ w login_pass ++
         [Stdout (not_found_message args)])
    | Err e =>
        (1%Z,
         trace_to_find argv environ w login_pass ++
         [Stdout (error_fetching_message e)])
    end.
Proof.
  intros args Hreach.
  destruct (found_id w) as [[cred_id|]|e] eqn:Hfound.
  - apply found_id_Some in Hfound.
    by rewrite (run_reaches_fetch _ _ _ _ _ _ (conj Hreach Hfound)).
  - unfold found_id in Hfound.
    destruct (find_results w) as [results|e] eqn:Hfind; [|discriminate].
    simpl in Hfound. destruct (truthy results) eqn:Hres.
    + destruct (first_id results); discriminate.
    + by rewrite (run_not_found _ _ _ _ _ _ Hreach Hfind Hres).
  - destruct Hreach as ((Hconf & Hpass & Hvault) & Hsecret & Htruthy).
    fold args in Hconf, Hpass, Hsecret.
    unfold run, main. fold args.
    rewrite (ensure_required_present _ _ Hconf).
    rewrite (returns_eq _ _ Hpass).
    simpl. rewrite (vault_login_ok _ _ _ _ Hvault).
    rewrite read_role_id_spec, Hsecret, Htruthy.
    simpl. rewrite find_credential_spec.
    unfold trace_to_find, trace_to_read.
    unfold found_id in Hfound.
    destruct (find_results w) as [results|e'] eqn:Hfind; simpl in Hfound.
    + destruct (truthy results) eqn:Hres; [|discriminate].
      destruct (first_id results) as [c|e'] eqn:Hid; [discriminate|].
      simpl in Hfound. injection Hfound as ->. simpl.
      rewrite <- !app_assoc. reflexivity.
    + injection Hfound as ->. simpl. rewrite <- !app_assoc. reflexivity.
Qed.

Lemma run_not_configured (argv : CommandLine) (environ : gmap string string)
    (w : World) :
  configured (parse_args argv environ) = false →
  ∃ line, run argv environ w = (1%Z, [Stdout line]).
Proof.
  intros Hconf. unfold run, main.
  destruct (ensure_required_cases (parse_args argv environ))
    as [[Hc _] | (q & _ & _ & ->)]; [congruence|].
  by eexists.
Qed.

Lemma run_prompt_fails (argv : CommandLine) (environ : gmap string string)
    (w : World) (e : exn) :
  let args := parse_args argv environ in
  configured args = true → fst (prompt_password w args) = Raise e →
  run argv environ w = (1%Z, snd (prompt_password w args) ++ [Traceback e]).
Proof.
  intros args Hconf Hraise. unfold run, main. fold args.
  rewrite (ensure_required_present _ _ Hconf).
  destruct (prompt_password w args) as [o tp]. simpl in Hraise. subst o.
  reflexivity.
Qed.

Lemma vault_calls_quiet (calls : list event) :
  Forall (λ ev, is_vault_call ev = true ∧ is_vault_read ev = false) calls →
  patch_bodies calls = [] ∧ platform_calls calls = [] ∧
  List.filter is_vault_read calls = [] ∧ stdout_lines calls = [].
Proof.
  induction 1 as [|ev calls [Hv Hr] _ (IH1 & IH2 & IH3 & IH4)]; [done|].
  unfold patch_bodies, platform_calls, stdout_lines in *. simpl.
  rewrite Hr. destruct ev; try discriminate; simpl; auto.
Qed.

Lemma patch_bodies_to_find (argv : CommandLine) (environ : gmap string string)
    (w : World) (login_pass : string) :
  patch_bodies (trace_to_read argv environ w login_pass) = [] ∧
  patch_bodies (trace_to_find argv environ w login_pass) = [].
Proof.
  unfold trace_to_find, trace_to_read. rewrite !patch_bodies_app.
  by destruct (prompt_password_trace w (parse_args argv environ)) as [-> | ->].
Qed.

(** A run either gets as far as the update, or ends with status 1 without
    having sent a PATCH. *)
Lemma run_outcome (argv : CommandLine) (environ : gmap string string)
    (w : World) :
  (∃ login_pass role_id cred_id inputs,
     reaches_update argv environ w login_pass role_id cred_id inputs) ∨
  (exit_code argv environ w = 1%Z ∧
   patch_bodies (trace argv environ w) = []).
Proof.
  destruct (configured (parse_args argv environ)) eqn:Hconf.
  2: { right. destruct (run_not_configured argv environ w Hconf) as [line Hrun].
       unfold exit_code, trace. by rewrite Hrun. }
  destruct (fst (prompt_password w (parse_args argv environ))) as [login_pass|code|e] eqn:Hprompt.
  2: { by destruct (prompt_password_no_exit w (parse_args argv environ) code). }
  2: { right. unfold exit_code, trace.
       rewrite (run_prompt_fails argv environ w e Hconf Hprompt). simpl.
       split; [reflexivity|]. rewrite patch_bodies_app.
       by destruct (prompt_password_quiet w (parse_args argv environ)) as [-> _]. }
  assert ((∃ e, userpass_login_answer w = Err e) ∨
          is_authenticated_answer w = Ok false ∨
          (∃ e, is_authenticated_answer w = Err e) ∨ vault_ok w)
    as [Hr | [Hr | [Hr | Hvault]]].
  { unfold vault_ok. destruct (userpass_login_answer w) as [[]|e]; eauto.
    destruct (is_authenticated_answer w) as [[|]|e]; eauto. }
  1, 2, 3:
    right;
    destruct (run_login_refused argv environ w login_pass Hconf Hprompt)
      as (calls & Hrun & Hcalls); [tauto|];
    unfold exit_code, trace; rewrite Hrun; simpl;
    (split; [reflexivity|]); rewrite !patch_bodies_app;
    destruct (prompt_password_quiet w (parse_args argv environ)) as [-> _];
    by destruct (vault_calls_quiet calls Hcalls) as [-> _].
  assert (reaches_read argv environ w login_pass) as Hread
    by (split; [exact Hconf | split; [exact Hprompt | exact Hvault]]).
  destruct (retrieved_secret w (parse_args argv environ)) as [role_id|e] eqn:Hsecret.
  2: { right. unfold exit_code, trace.
       rewrite (run_reaches_read _ _ _ _ Hread);
         simpl; rewrite Hsecret; [|discriminate]. simpl.
       split; [reflexivity|]. rewrite patch_bodies_app.
       by destruct (patch_bodies_to_find argv environ w login_pass) as [-> _]. }
  destruct (truthy role_id) eqn:Htruthy.
  2: { right. unfold exit_code, trace.
       rewrite (run_reaches_read _ _ _ _ Hread);
         simpl; rewrite Hsecret; [|by intros ? [= <-]]. simpl.
       split; [reflexivity|]. rewrite patch_bodies_app.
       by destruct (patch_bodies_to_find argv environ w login_pass) as [-> _]. }
  assert (reaches_find argv environ w login_pass role_id) as Hfind
    by (split; [exact Hread | split; [exact Hsecret | exact Htruthy]]).
  pose proof (run_reaches_find _ _ _ _ _ Hfind) as Hrun. simpl in Hrun.
  destruct (found_id w) as [[cred_id|]|e] eqn:Hfound.
  - destruct (fetched_inputs w) as [current_inputs|e] eqn:Hinputs.
    + destruct (setitem current_inputs "role_id" role_id) as [merged|e] eqn:Hset.
      * left. apply setitem_Ok in Hset as (inputs & -> & _).
        exists login_pass, role_id, cred_id, inputs.
        split; [|exact Hinputs]. split; [exact Hfind|].
        by apply found_id_Some.
      * right. unfold exit_code, trace. rewrite Hrun. simpl.
        split; [reflexivity|].
        by rewrite patch_bodies_app, patch_bodies_to_fetch.
    + right. unfold exit_code, trace. rewrite Hrun. simpl.
      split; [reflexivity|].
      by rewrite patch_bodies_app, patch_bodies_to_fetch.
  - right. unfold exit_code, trace. rewrite Hrun. simpl.
    split; [reflexivity|]. rewrite patch_bodies_app.
    by destruct (patch_bodies_to_find argv environ w login_pass) as [_ ->].
  - right. unfold exit_code, trace. rewrite Hrun. simpl.
    split; [reflexivity|]. rewrite patch_bodies_app.
    by destruct (patch_bodies_to_find argv environ w login_pass) as [_ ->].
Qed.

(** ** Further properties of the script *)

(** X1.  [parse_args] reads exactly the environment variables of the
    options whose flag is absent: two environments give the same namespace
    if and only if they agree on those variables.  A flag hides its
    variable, and no other variable enters the namespace. *)
Theorem X1_shadowed_environment (argv : CommandLine)
    (environ environ' : gmap string string) :
  parse_args argv environ = parse_args argv environ' ↔
  Forall (λ name, environ !! name = environ' !! name) (env_fallbacks argv).
Proof.
  unfold env_fallbacks. rewrite !Forall_app.
  unfold parse_args, add_argument, getenv.
  destruct argv as [f1 f2 f3 f4 f5 f6 f7 f8 nv]. simpl. split.
  - intros H. injection H as H1 H2 H3 H4 H5 H6 H7 H8.
    repeat split;
      match goal with
      | |- Forall _ (fallback ?f _) =>
          destruct f; simpl; repeat constructor; assumption
      end.
  - intros (H1 & H2 & H3 & H4 & H5 & H6 & H7 & H8).
    f_equal;
      match goal with
      | |- match ?f with _ => _ end = _ =>
          destruct f; [reflexivity|]; simpl in *
      end;
      match goal with
      | Hf : Forall _ [?name] |- _ !! ?name = _ => by inversion Hf
      end.
Qed.

(** X2.  Every network call of a run, to Vault or to the platform, verifies
    TLS unless --no-verify-tls is on the command line; the environment has
    no say in it. *)
Theorem X2_tls_verification (argv : CommandLine) (environ : gmap string string)
    (w : World) (ev : event) (verify : bool) :
  In ev (trace argv environ w) → verify_of ev = Some verify →
  verify = negb (flag_no_verify_tls argv).
Proof.
  intros Hin%trace_emitted Hverify.
  destruct Hin; simpl in Hverify; try discriminate;
    by injection Hverify as <-.
Qed.

(** X3.  When Vault refuses the login (the login raises, or the client is
    not authenticated, or the check raises), the run ends with status 1 on
    the line of that failure, and neither the secret read nor any platform
    request is made. *)
Theorem X3_vault_login_refused (argv : CommandLine)
    (environ : gmap string string) (w : World) (login_pass : string) :
  let args := parse_args argv environ in
  configured args = true → password_obtained w args login_pass →
  (∃ e, userpass_login_answer w = Err e) ∨
  is_authenticated_answer w = Ok false ∨
  (∃ e, is_authenticated_answer w = Err e) →
  exit_code argv environ w = 1%Z ∧
  last (trace argv environ w) = Some (Stdout (vault_failure_line w)) ∧
  List.filter is_vault_read (trace argv environ w) = [] ∧
  platform_calls (trace argv environ w) = [].
Proof.
  intros args Hconf Hpass Hrefused.
  destruct (run_login_refused argv environ w login_pass Hconf Hpass Hrefused)
    as (calls & Hrun & Hcalls).
  destruct (vault_calls_quiet calls Hcalls) as (_ & Hplat & Hread & _).
  destruct (prompt_password_quiet w args) as (_ & Hplat' & Hread' & _).
  unfold exit_code, trace. rewrite Hrun. simpl. fold args.
  split; [reflexivity|]. split; [by rewrite !app_assoc, last_snoc|].
  unfold platform_calls in *. rewrite !List.filter_app.
  by rewrite Hplat, Hread, Hplat', Hread'.
Qed.

(** X4.  When no usable password is supplied and the prompt fails, nothing is
    caught: the run ends with a traceback and status 1, before any network
    call. *)
Theorem X4_prompt_failure (argv : CommandLine) (environ : gmap string string)
    (w : World) (e : exn) :
  let args := parse_args argv environ in
  configured args = true →
  password args = None ∨ password args = Some "" →
  getpass_answer w = Err e →
  run argv environ w = (1%Z, [GetPass (getpass_prompt args); Traceback e]).
Proof.
  intros args Hconf Hnone Hanswer.
  rewrite (run_prompt_fails argv environ w e Hconf); fold args;
    rewrite (prompt_password_prompted _ _ Hnone), Hanswer; reflexivity.
Qed.

(** X5.  When the secret cannot be read at all (the read raises, or the
    answer has no data.data, or a get is made on something that is not a
    mapping), the run ends with status 1 on the error-reading line with the
    text of the exception, and no platform request is made. *)
Theorem X5_secret_read_error (argv : CommandLine)
    (environ : gmap string string) (w : World) (login_pass : string)
    (e : exn) :
  let args := parse_args argv environ in
  reaches_read argv environ w login_pass →
  retrieved_secret w args = Err e →
  exit_code argv environ w = 1%Z ∧
  last (trace argv environ w) = Some (Stdout (error_reading_message e)) ∧
  platform_calls (trace argv environ w) = [].
Proof.
  intros args Hreach Hsecret.
  unfold exit_code, trace.
  rewrite (run_reaches_read _ _ _ _ Hreach); fold args; rewrite Hsecret;
    [|discriminate].
  simpl. split; [reflexivity|]. split; [apply last_snoc|].
  by rewrite platform_calls_app, platform_calls_to_read.
Qed.

(** X6.  When the search gives no identifier because something raises (the
    request, the status, the JSON, results that cannot be indexed, a first
    record without "id"), the run ends with status 1 on the error-fetching
    line, and the search is the only platform request. *)
Theorem X6_search_error (argv : CommandLine) (environ : gmap string string)
    (w : World) (login_pass : string) (role_id : json) (e : exn) :
  let args := parse_args argv environ in
  reaches_find argv environ w login_pass role_id →
  found_id w = Err e →
  exit_code argv environ w = 1%Z ∧
  last (trace argv environ w) = Some (Stdout (error_fetching_message e)) ∧
  platform_calls (trace argv environ w)
  = [HttpGet (new_session w args login_pass) (find_url args)
       (negb (no_verify_tls args))].
Proof.
  intros args Hreach Hfound.
  unfold exit_code, trace.
  rewrite (run_reaches_find _ _ _ _ _ Hreach), Hfound. fold args.
  simpl. split; [reflexivity|]. split; [apply last_snoc|].
  by rewrite platform_calls_app, platform_calls_to_find.
Qed.

Lemma found_id_http_error (w : World) (r : response) :
  find_answer w = Ok r →
  (400 ≤ status_code r < 600)%Z →
  found_id w = Err (HTTPError (status_code r) (reason r) (response_url r)).
Proof.
  intros Hanswer [Hlo Hhi]. unfold found_id, find_results, results_of.
  rewrite Hanswer. simpl. unfold raise_for_status.
  apply Z.leb_le in Hlo. apply Z.ltb_lt in Hhi. by rewrite Hlo, Hhi.
Qed.

(** X7.  An answer to the search with a status from 400 to 599 ends the run
    with status 1 and the error-fetching line of the HTTP error, whatever
    the body of the answer holds. *)
Theorem X7_search_http_error (argv : CommandLine)
    (environ : gmap string string) (w : World) (login_pass : string)
    (role_id : json) (r : response) :
  reaches_find argv environ w login_pass role_id →
  find_answer w = Ok r →
  (400 ≤ status_code r < 600)%Z →
  exit_code argv environ w = 1%Z ∧
  last (trace argv environ w)
  = Some (Stdout (error_fetching_message
                    (HTTPError (status_code r) (reason r) (response_url r)))) ∧
  patch_bodies (trace argv environ w) = [].
Proof.
  intros Hreach Hanswer Hstatus.
  pose proof (found_id_http_error w r Hanswer Hstatus) as Hfound.
  unfold exit_code, trace.
  rewrite (run_reaches_find _ _ _ _ _ Hreach), Hfound.
  simpl. split; [reflexivity|]. split; [apply last_snoc|].
  rewrite patch_bodies_app.
  by destruct (patch_bodies_to_find argv environ w login_pass) as [_ ->].
Qed.

(** X8.  When the fetch of the record fails (the request, the status or the
    JSON raises, or the document is not a mapping), the run ends with
    status 1 on the failed-to-fetch line and no PATCH is sent. *)
Theorem X8_fetch_failure (argv : CommandLine) (environ : gmap string string)
    (w : World) (login_pass : string) (role_id cred_id : json) (e : exn) :
  reaches_fetch argv environ w login_pass role_id cred_id →
  fetched_inputs w = Err e →
  exit_code argv environ w = 1%Z ∧
  last (trace argv environ w) = Some (Stdout (failed_to_fetch_message e)) ∧
  patch_bodies (trace argv environ w) = [].
Proof.
  intros Hreach Hinputs.
  unfold exit_code, trace.
  rewrite (run_reaches_fetch _ _ _ _ _ _ Hreach), Hinputs.
  simpl. split; [reflexivity|]. split; [apply last_snoc|].
  by rewrite patch_bodies_app, patch_bodies_to_fetch.
Qed.

(** X9.  When the fetched document has "inputs" bound to something that is
    not a mapping (null, a list, a string, a number), the assignment of
    line 111 raises outside any try: the run ends with a traceback of that
    TypeError and status 1, and no PATCH is sent. *)
Theorem X9_inputs_not_a_mapping (argv : CommandLine)
    (environ : gmap string string) (w : World) (login_pass : string)
    (role_id cred_id current_inputs : json) :
  reaches_fetch argv environ w login_pass role_id cred_id →
  fetched_inputs w = Ok current_inputs →
  type_of current_inputs ≠ TDict →
  exit_code argv environ w = 1%Z ∧
  last (trace argv environ w)
  = Some (Traceback
            (TypeErrorSetItem (type_of current_inputs) (SubStr "role_id"))) ∧
  patch_bodies (trace argv environ w) = [].
Proof.
  intros Hreach Hinputs Htype.
  assert (setitem current_inputs "role_id" role_id
          = Err (TypeErrorSetItem (type_of current_inputs) (SubStr "role_id")))
    as Hset by (destruct current_inputs; try reflexivity; by destruct Htype).
  unfold exit_code, trace.
  rewrite (run_reaches_fetch _ _ _ _ _ _ Hreach), Hinputs, Hset.
  simpl. split; [reflexivity|]. split; [apply last_snoc|].
  by rewrite patch_bodies_app, patch_bodies_to_fetch.
Qed.

(** X10.  When the PATCH request itself raises, the exception is caught: the
    last line is the error-during-update line with its text, and the
    process ends with status 0. *)
Theorem X10_update_exception (argv : CommandLine)
    (environ : gmap string string) (w : World) (login_pass : string)
    (role_id cred_id : json) (inputs : gmap string json) (e : exn) :
  reaches_update argv environ w login_pass role_id cred_id inputs →
  patch_answer w = Err e →
  exit_code argv environ w = 0%Z ∧
  last (trace argv environ w) = Some (Stdout (error_during_update_message e)).
Proof.
  intros Hreach Hpatch.
  unfold exit_code, trace. rewrite (run_reaches_update _ _ _ _ _ _ _ Hreach).
  simpl. split; [reflexivity|].
  rewrite last_two. unfold update_report. by rewrite Hpatch.
Qed.

Lemma success_is_not_failure (args : Namespace) (cred_id : json)
    (r : response) (e : exn) :
  success_message args cred_id ≠ failed_to_update_message r ∧
  success_message args cred_id ≠ error_during_update_message e.
Proof.
  split; intros H; apply (f_equal (String.get 1)) in H;
    vm_compute in H; discriminate H.
Qed.

(** X11.  In a run that gets as far as the update, the last line is the
    success line exactly when the PATCH is answered with status 200 or
    202. *)
Theorem X11_success_line (argv : CommandLine) (environ : gmap string string)
    (w : World) (login_pass : string) (role_id cred_id : json)
    (inputs : gmap string json) :
  let args := parse_args argv environ in
  reaches_update argv environ w login_pass role_id cred_id inputs →
  (last (trace argv environ w) = Some (Stdout (success_message args cred_id))
   ↔ ∃ r, patch_answer w = Ok r ∧
          (status_code r = 200%Z ∨ status_code r = 202%Z)).
Proof.
  intros args Hreach.
  unfold trace. rewrite (run_reaches_update _ _ _ _ _ _ _ Hreach). simpl.
  rewrite last_two. unfold update_report. fold args.
  destruct (patch_answer w) as [r|e].
  - destruct (Z.eqb_spec (status_code r) 200) as [H200|H200];
      [|destruct (Z.eqb_spec (status_code r) 202) as [H202|H202]]; simpl.
    + split; eauto.
    + split; eauto.
    + split.
      * intros H. exfalso. injection H as H. symmetry in H.
        by destruct (success_is_not_failure args cred_id r (Foreign "")) as [? _].
      * intros (r' & [= <-] & [? | ?]); congruence.
  - split.
    + intros H. exfalso. injection H as H. symmetry in H.
      by destruct (success_is_not_failure args cred_id
                     {| status_code := 0; text := ""; json_body := Err e;
                        reason := ""; response_url := "" |} e)
        as [_ ?].
    + intros (r' & [=] & _).
Qed.

(** X12.  Once argparse has accepted the command line, the exit status is 0
    or 1, and it is 0 exactly when the run sent its PATCH request, of which
    there is never more than one: status 0 says that the update was
    attempted, not that it was accepted.  (On [--help] or a command line it
    rejects, argparse exits by itself with 0 or 2, before line 45.) *)
Theorem X12_exit_status (argv : CommandLine) (environ : gmap string string)
    (w : World) :
  (exit_code argv environ w = 0%Z ∧
   ∃ body, patch_bodies (trace argv environ w) = [body]) ∨
  (exit_code argv environ w = 1%Z ∧
   patch_bodies (trace argv environ w) = []).
Proof.
  destruct (run_outcome argv environ w)
    as [(login_pass & role_id & cred_id & inputs & Hreach) | H];
    [left | by right].
  unfold exit_code, trace. rewrite (run_reaches_update _ _ _ _ _ _ _ Hreach).
  simpl. split; [reflexivity|]. eexists.
  by rewrite patch_bodies_app, patch_bodies_to_fetch.
Qed.

(** X13.  The platform receives a request only in a run in which the
    configuration is complete, Vault accepted the login, and the secret
    lookup gave a truthy value. *)
Theorem X13_platform_after_vault (argv : CommandLine)
    (environ : gmap string string) (w : World) (ev : event) :
  let args := parse_args argv environ in
  In ev (trace argv environ w) → is_platform_call ev = true →
  configured args = true ∧ vault_ok w ∧
  ∃ role_id, retrieved_secret w args = Ok role_id ∧ truthy role_id = true.
Proof.
  intros args Hin%trace_emitted Hplatform.
  assert (∃ login_pass role_id,
            reaches_find argv environ w login_pass role_id)
    as (login_pass & role_id & (Hconf & _ & Hvault) & Hsecret & Htruthy).
  { destruct Hin as [| | | | | | ? ? H | ? ? ? H | ? ? ? ? H];
      try discriminate; eauto.
    - destruct H as [H _]. eauto.
    - destruct H as [[H _] _]. eauto. }
  split; [exact Hconf|]. split; [exact Hvault|]. eauto.
Qed.

(** X14.  Every request to the platform goes through the one session of
    lines 82-84: basic authentication with the configured user name, the
    header Content-Type: application/json, and the other headers as the
    library has them. *)
Theorem X14_platform_session (argv : CommandLine)
    (environ : gmap string string) (w : World) (ev : event) (s : Session) :
  let args := parse_args argv environ in
  In ev (trace argv environ w) → session_of ev = Some s →
  fst (auth s) = username args ∧
  headers s !! "Content-Type" = Some "application/json" ∧
  ∀ name, name ≠ "Content-Type" → headers s !! name = default_headers w !! name.
Proof.
  intros args Hin%trace_emitted Hsession.
  assert (∃ login_pass, s = new_session w args login_pass) as [login_pass ->].
  { destruct Hin; simpl in Hsession; try discriminate;
      injection Hsession as <-; eauto. }
  simpl. split; [reflexivity|]. split; [apply lookup_insert_eq|].
  intros name Hne. by apply lookup_insert_ne.
Qed.

Lemma same_reaches_find (argv : CommandLine) (environ : gmap string string)
    (w1 w2 : World) (login_pass : string) (role_id1 role_id2 : json) :
  let args := parse_args argv environ in
  same_but_secret_and_patch w1 w2 →
  reaches_find argv environ w1 login_pass role_id1 →
  retrieved_secret w2 args = Ok role_id2 → truthy role_id2 = true →
  reaches_find argv environ w2 login_pass role_id2.
Proof.
  intros args (Hg & Hl & Ha & _) ((Hconf & Hpass & Hv1 & Hv2) & _) Hs Ht.
  split; [|by split]. split; [exact Hconf|]. split.
  - unfold password_obtained, prompt_password in *. by rewrite <- Hg.
  - split; congruence.
Qed.

Lemma same_traces (argv : CommandLine) (environ : gmap string string)
    (w1 w2 : World) (login_pass : string) (cred_id : json) :
  same_but_secret_and_patch w1 w2 →
  found_id w2 = found_id w1 ∧ fetched_inputs w2 = fetched_inputs w1 ∧
  new_session w2 (parse_args argv environ) login_pass
  = new_session w1 (parse_args argv environ) login_pass ∧
  trace_to_find argv environ w2 login_pass
  = trace_to_find argv environ w1 login_pass ∧
  trace_to_fetch argv environ w2 login_pass cred_id
  = trace_to_fetch argv environ w1 login_pass cred_id.
Proof.
  intros (Hg & _ & _ & Hf & Hd & Hh).
  unfold found_id, find_results, fetched_inputs, trace_to_fetch, trace_to_find,
    trace_to_read, new_session, prompt_password.
  by rewrite Hg, Hf, Hd, Hh.
Qed.

(** X15.  The secret goes into the PATCH body and nowhere else.  Take two
    runs whose worlds give the same answers except for the secret (truthy in
    both) and for the answer to the PATCH.  They end with the same status.
    Either they stop before the update with the same trace, or their traces
    are the same up to the PATCH, whose bodies differ only in the value
    under "role_id", followed by the line that reports the update, which is
    made from the answer to the PATCH (its status and text, or the text of
    the exception) and so is the one line in which the platform can echo
    the secret. *)
Theorem X15_secret_only_in_patch (argv : CommandLine)
    (environ : gmap string string) (w1 w2 : World) (login_pass : string)
    (role_id1 role_id2 : json) :
  let args := parse_args argv environ in
  let session := new_session w1 args login_pass in
  let verify_tls := negb (no_verify_tls args) in
  same_but_secret_and_patch w1 w2 →
  reaches_find argv environ w1 login_pass role_id1 →
  retrieved_secret w2 args = Ok role_id2 → truthy role_id2 = true →
  exit_code argv environ w1 = exit_code argv environ w2 ∧
  ∃ before,
    patch_bodies before = [] ∧
    ((trace argv environ w1 = before ∧ trace argv environ w2 = before) ∨
     ∃ cred_id inputs,
       trace argv environ w1
       = before ++
         [HttpPatch session (cred_url_of args cred_id)
            (patch_body (JObj (<["role_id" := role_id1]> inputs))) verify_tls;
          Stdout (update_report w1 args cred_id)] ∧
       trace argv environ w2
       = before ++
         [HttpPatch session (cred_url_of args cred_id)
            (patch_body (JObj (<["role_id" := role_id2]> inputs))) verify_tls;
          Stdout (update_report w2 args cred_id)]).
Proof.
  intros args session verify_tls Hsame Hreach1 Hsecret2 Htruthy2.
  subst args session verify_tls.
  pose proof (same_reaches_find _ _ _ _ _ _ _ Hsame Hreach1 Hsecret2 Htruthy2)
    as Hreach2.
  unfold exit_code, trace.
  rewrite (run_reaches_find _ _ _ _ _ Hreach1).
  rewrite (run_reaches_find _ _ _ _ _ Hreach2).
  destruct (same_traces argv environ w1 w2 login_pass JNull Hsame)
    as (-> & -> & -> & -> & _).
  destruct (found_id w1) as [[cred_id|]|e].
  - destruct (same_traces argv environ w1 w2 login_pass cred_id Hsame)
      as (_ & _ & _ & _ & ->).
    destruct (fetched_inputs w1) as [current_inputs|e].
    + destruct current_inputs; cbn [fst snd setitem];
        try (split; [reflexivity|]; eexists; split;
             [|left; split; reflexivity];
             by rewrite patch_bodies_app, patch_bodies_to_fetch).
      split; [reflexivity|]. eexists. split; [apply patch_bodies_to_fetch|].
      right. by eexists _, _.
    + cbn [fst snd]. split; [reflexivity|].
      eexists. split; [|left; split; reflexivity].
      by rewrite patch_bodies_app, patch_bodies_to_fetch.
  - cbn [fst snd]. split; [reflexivity|].
    eexists. split; [|left; split; reflexivity].
    rewrite patch_bodies_app.
    by destruct (patch_bodies_to_find argv environ w1 login_pass) as [_ ->].
  - cbn [fst snd]. split; [reflexivity|].
    eexists. split; [|left; split; reflexivity].
    rewrite patch_bodies_app.
    by destruct (patch_bodies_to_find argv environ w1 login_pass) as [_ ->].
Qed.

Lemma configured_iff (args : Namespace) :
  configured args = true ↔
  Forall (λ a : option string, a ≠ None)
    [vault_addr args; vault_secret args; key args; subkey args; awx_url args;
     cred_name args; username args].
Proof.
  unfold configured, required, present. simpl.
  rewrite !Forall_cons, Forall_nil.
  destruct (vault_addr args), (vault_secret args), (key args), (subkey args),
    (awx_url args), (cred_name args), (username args); simpl;
    (split;
     [ intros H; first [discriminate H | repeat split; discriminate]
     | intros (H1 & H2 & H3 & H4 & H5 & H6 & H7 & _);
       first [reflexivity | congruence] ]).
Qed.

(** X16.  The loop over the required parameters only looks for None: it goes
    through without a line and without exit exactly when each of the seven
    has a value, an empty string included; the password is not among
    them. *)
Theorem X16_required_check (args : Namespace) :
  ensure_required args required = (Return tt, []) ↔
  Forall (λ a : option string, a ≠ None)
    [vault_addr args; vault_secret args; key args; subkey args; awx_url args;
     cred_name args; username args].
Proof.
  rewrite <- configured_iff.
  destruct (ensure_required_cases args) as [[Hconf ->] | (q & _ & _ & Hexit)].
  - by rewrite Hconf.
  - rewrite Hexit. split; [discriminate|]. intros Hconf.
    rewrite (ensure_required_present _ _ Hconf) in Hexit. discriminate.
Qed.

Lemma bind_trace_prefix {A B} (m : M A) (k : A → M B) :
  ∃ rest, snd (m ≫= k) = snd m ++ rest.
Proof.
  destruct m as [[a|code|e] t]; unfold mbind, M_bind.
  - destruct (k a) as [o t']. by eexists.
  - exists []. by rewrite app_nil_r.
  - exists []. by rewrite app_nil_r.
Qed.

Lemma trace_has_login (argv : CommandLine) (environ : gmap string string)
    (w : World) (login_pass : string) :
  let args := parse_args argv environ in
  configured args = true → password_obtained w args login_pass →
  In (VaultLogin (vault_addr args) (negb (no_verify_tls args)) (username args)
        login_pass)
     (trace argv environ w).
Proof.
  intros args Hconf Hpass. unfold trace, run, main. fold args.
  rewrite (ensure_required_present _ _ Hconf).
  rewrite (returns_eq _ _ Hpass).
  rewrite bind_return. rewrite bind_return.
  assert (∃ rest', snd (vault_login w args (negb (no_verify_tls args))
                          login_pass)
                   = VaultLogin (vault_addr args) (negb (no_verify_tls args))
                       (username args) login_pass :: rest')
    as [rest' Hlogin].
  { rewrite vault_login_spec.
    destruct (userpass_login_answer w) as [[]|e];
      [destruct (is_authenticated_answer w) as [[|]|e]|]; by eexists. }
  match goal with
  | |- context [snd (?m ≫= ?k)] =>
      destruct (bind_trace_prefix m k) as [rest Hrest];
      rewrite Hlogin in Hrest;
      destruct (m ≫= k) as [o t]
  end.
  change ((o, t).2) with t in Hrest. subst t.
  destruct o; simpl; rewrite !List.in_app_iff; simpl; auto.
Qed.

Lemma trace_has_search (argv : CommandLine) (environ : gmap string string)
    (w : World) (login_pass : string) (role_id : json) :
  let args := parse_args argv environ in
  reaches_find argv environ w login_pass role_id →
  In (HttpGet (new_session w args login_pass) (find_url args)
        (negb (no_verify_tls args)))
     (trace argv environ w).
Proof.
  intros args Hreach.
  assert (In (HttpGet (new_session w args login_pass) (find_url args)
                (negb (no_verify_tls args)))
             (trace_to_find argv environ w login_pass)) as Hin.
  { unfold trace_to_find. apply in_or_app. right. right. by left. }
  unfold trace. rewrite (run_reaches_find _ _ _ _ _ Hreach).
  destruct (found_id w) as [[cred_id|]|e];
    [destruct (fetched_inputs w) as [current_inputs|e];
     [destruct (setitem current_inputs "role_id" role_id) as [merged|e]|]|..];
    cbn [snd]; unfold trace_to_fetch; rewrite ?List.in_app_iff; auto.
Qed.


End Script.

(** ** The sample runs *)

Ltac reach :=
  repeat (split || eexists); vm_compute; reflexivity.

Lemma C1_witness :
  ∃ merged : gmap string json,
    patch_bodies (trace Demo.str_exn Demo.repr_value Demo.argv Demo.environ
                    Demo.world)
    = [JObj {["inputs" := JObj merged]}] ∧
    merged !! "role_id" = Some (JStr "X") ∧
    ∀ k, k ≠ "role_id" →
         merged !! k = ({["a" := JInt 1; "b" := JInt 2]} : gmap string json) !! k.
Proof.
  apply (C1_merge_preserves_fields Demo.str_exn Demo.repr_value Demo.argv
           Demo.environ Demo.world "hunter2" (JStr "X") (JInt 7)).
  reach.
Defined.

(** C1 as stated fails: with inputs {"a":1,"b":2} and role-id "X" the body
    of the PATCH is {"inputs": {"a":1,"b":2,"role_id":"X"}}, and not the
    mapping {"a":1,"b":2,"role_id":"X"} itself. *)
Lemma C1_counterexample :
  fetched_inputs Demo.world = Ok (JObj {["a" := JInt 1; "b" := JInt 2]}) ∧
  retrieved_secret Demo.world (parse_args Demo.argv Demo.environ)
  = Ok (JStr "X") ∧
  patch_bodies (trace Demo.str_exn Demo.repr_value Demo.argv Demo.environ
                  Demo.world)
  = [JObj {["inputs" :=
              JObj {["a" := JInt 1; "b" := JInt 2; "role_id" := JStr "X"]}]}] ∧
  patch_bodies (trace Demo.str_exn Demo.repr_value Demo.argv Demo.environ
                  Demo.world)
  ≠ [JObj {["a" := JInt 1; "b" := JInt 2; "role_id" := JStr "X"]}].
Proof.
  assert (patch_bodies (trace Demo.str_exn Demo.repr_value Demo.argv
                          Demo.environ Demo.world)
          = [JObj {["inputs" :=
                      JObj {["a" := JInt 1; "b" := JInt 2;
                             "role_id" := JStr "X"]}]}]) as Hbody
    by (vm_compute; reflexivity).
  split; [vm_compute; reflexivity|]. split; [vm_compute; reflexivity|].
  split; [exact Hbody|].
  rewrite Hbody. intros H.
  assert (Hl := f_equal (λ l, match l with
                              | [JObj m] => m !! "inputs"
                              | _ => None
                              end) H).
  vm_compute in Hl. discriminate Hl.
Qed.

Lemma C2_witness :
  run Demo.str_exn Demo.repr_value Demo.argv (delete "AWX_URL" Demo.environ)
    Demo.world
  = (1%Z,
     [Stdout "❌ Missing required parameter: awx_url. Use --awx-url or environment variable."]).
Proof.
  destruct (C2_missing_required_parameter Demo.str_exn Demo.repr_value
              Demo.argv (delete "AWX_URL" Demo.environ) Demo.world "awx_url")
    as (pre & q & post & _ & _ & _ & _ & Hq & Hrun & _).
  - simpl. tauto.
  - vm_compute. reflexivity.
  - rewrite Hq in Hrun; [exact Hrun|].
    intros p Hin Hne. simpl in Hin.
    repeat (destruct Hin as [<- | Hin]; [(vm_compute; reflexivity) || congruence|]).
    destruct Hin.
Defined.

(** C2 as stated fails: with nothing configured, "key" is a required
    parameter without a value, and the only line printed names
    "vault_addr"; "key" does not occur in it. *)
Lemma C2_counterexample :
  In "key" required ∧
  getattr (parse_args Demo.no_flags ∅) "key" = Ok None ∧
  trace Demo.str_exn Demo.repr_value Demo.no_flags ∅ Demo.world
  = [Stdout "❌ Missing required parameter: vault_addr. Use --vault-addr or environment variable."] ∧
  missing_parameter_message "key"
  ≠ "❌ Missing required parameter: vault_addr. Use --vault-addr or environment variable." ∧
  String.index 0 "key"
    "❌ Missing required parameter: vault_addr. Use --vault-addr or environment variable."
  = None.
Proof.
  split; [simpl; tauto|].
  split; [vm_compute; reflexivity|].
  split; [vm_compute; reflexivity|].
  split; [|vm_compute; reflexivity].
  intros H. vm_compute in H. discriminate H.
Qed.

Lemma C3_witness :
  let w := with_secret Demo.world
             (Ok (secret_response (JObj {["credentials" := JObj ∅]}))) in
  exit_code Demo.str_exn Demo.repr_value Demo.argv Demo.environ w = 1%Z ∧
  (∃ line,
     last (trace Demo.str_exn Demo.repr_value Demo.argv Demo.environ w)
     = Some (Stdout line) ∧
     secret_not_found_line Demo.str_exn (parse_args Demo.argv Demo.environ)
       line) ∧
  platform_calls (trace Demo.str_exn Demo.repr_value Demo.argv Demo.environ w)
  = [].
Proof.
  intros w.
  apply (C3_secret_not_found Demo.str_exn Demo.repr_value Demo.argv
           Demo.environ w "hunter2"
           (secret_response (JObj {["credentials" := JObj ∅]}))
           (JObj {["credentials" := JObj ∅]})).
  - reach.
  - reflexivity.
  - vm_compute. reflexivity.
  - left. vm_compute. reflexivity.
Defined.

Lemma C4_witness :
  let w := Demo.with_find Demo.world
             (Ok (Demo.ok_response
                    (JObj {["count" := JInt 0; "results" := JList []]}))) in
  exit_code Demo.str_exn Demo.repr_value Demo.argv Demo.environ w = 1%Z ∧
  last (trace Demo.str_exn Demo.repr_value Demo.argv Demo.environ w)
  = Some (Stdout "❌ Credential 'my-credential' not found.") ∧
  platform_calls (trace Demo.str_exn Demo.repr_value Demo.argv Demo.environ w)
  = [HttpGet Demo.session
       "https://awxurl.com/api/v2/credentials/?name=my-credential" true].
Proof.
  intros w.
  apply (C4_record_not_found Demo.str_exn Demo.repr_value Demo.argv
           Demo.environ w "hunter2" (JStr "X")).
  - reach.
  - vm_compute. reflexivity.
Defined.

Lemma C5_witness :
  let w := Demo.with_patch Demo.world (Ok Demo.bad_request) in
  exit_code Demo.str_exn Demo.repr_value Demo.argv Demo.environ w = 0%Z ∧
  last (trace Demo.str_exn Demo.repr_value Demo.argv Demo.environ w)
  = Some (Stdout "❌ Failed to update credential: 400 Bad Request").
Proof.
  intros w.
  apply (C5_update_failure_reported Demo.str_exn Demo.repr_value Demo.argv
           Demo.environ w "hunter2" (JStr "X") (JInt 7)
           {["a" := JInt 1; "b" := JInt 2]} Demo.bad_request).
  - reach.
  - reflexivity.
  - simpl. lia.
  - simpl. lia.
Defined.

Lemma C6_witness :
  exit_code Demo.str_exn Demo.repr_value Demo.argv Demo.environ Demo.world
  = 0%Z ∧
  ∃ line,
    last (trace Demo.str_exn Demo.repr_value Demo.argv Demo.environ Demo.world)
    = Some (Stdout line) ∧
    line = "✅ Successfully updated 'role_id' for credential 'my-credential' (ID 7)" ∧
    occurs_in "my-credential" line ∧ occurs_in "7" line.
Proof.
  apply (C6_success Demo.str_exn Demo.repr_value Demo.argv Demo.environ
           Demo.world "hunter2" (JStr "X") 7
           {["a" := JInt 1; "b" := JInt 2]} "my-credential"
           (Demo.ok_response (JObj ∅))).
  - reach.
  - vm_compute. reflexivity.
  - reflexivity.
  - reflexivity.
Defined.


Lemma C8_witness :
  let w := with_secret Demo.world
             (Ok (secret_response
                    (JObj {["credentials" := JObj {["password" := JStr ""]}]}))) in
  exit_code Demo.str_exn Demo.repr_value Demo.argv Demo.environ w = 1%Z ∧
  last (trace Demo.str_exn Demo.repr_value Demo.argv Demo.environ w)
  = Some (Stdout "❌ Failed to retrieve 'credentials.password' from Vault.") ∧
  run Demo.str_exn Demo.repr_value Demo.argv Demo.environ w
  = run Demo.str_exn Demo.repr_value Demo.argv Demo.environ
      (with_secret w (Ok (secret_response (JObj ∅)))).
Proof.
  intros w.
  apply (proj1 (C8_falsy_secret_rejected Demo.str_exn Demo.repr_value)
           Demo.argv Demo.environ w "hunter2"
           (secret_response
              (JObj {["credentials" := JObj {["password" := JStr ""]}]}))
           (JObj {["credentials" := JObj {["password" := JStr ""]}]})
           (JStr "")).
  - reach.
  - reflexivity.
  - vm_compute. reflexivity.
  - vm_compute. reflexivity.
  - reflexivity.
Defined.


Lemma C10_witness :
  let w := Demo.with_detail Demo.world
             (Ok (Demo.ok_response (JObj {["id" := JInt 7]}))) in
  exit_code Demo.str_exn Demo.repr_value Demo.argv Demo.environ w = 0%Z ∧
  patch_bodies (trace Demo.str_exn Demo.repr_value Demo.argv Demo.environ w)
  = [JObj {["inputs" := JObj {["role_id" := JStr "X"]}]}].
Proof.
  intros w.
  apply (C10_no_inputs_key Demo.str_exn Demo.repr_value Demo.argv
           Demo.environ w "hunter2" (JStr "X") (JInt 7)
           (Demo.ok_response (JObj {["id" := JInt 7]})) {["id" := JInt 7]}).
  - reach.
  - reflexivity.
  - reflexivity.
  - reflexivity.
  - vm_compute. reflexivity.
Defined.

(** ** Sample runs for the further properties *)

Lemma X1_witness :
  let environ' := <["VAULT_KEY" := "other"]> (<["HOME" := "/root"]> Demo.environ) in
  parse_args Demo.argv Demo.environ = parse_args Demo.argv environ'.
Proof.
  intros environ'.
  apply (proj2 (X1_shadowed_environment Demo.argv Demo.environ environ')).
  vm_compute. repeat constructor.
Defined.

Lemma X2_witness :
  true = negb (flag_no_verify_tls Demo.argv).
Proof.
  apply (X2_tls_verification Demo.str_exn Demo.repr_value Demo.argv
           Demo.environ Demo.world
           (VaultLogin (Some "https://vaulturl.com") true (Some "user1")
              "hunter2") true).
  - vm_compute. left. reflexivity.
  - reflexivity.
Defined.

Lemma X3_witness :
  exit_code Demo.str_exn Demo.repr_value Demo.argv Demo.environ
    Failing.login_refused = 1%Z ∧
  last (trace Demo.str_exn Demo.repr_value Demo.argv Demo.environ
          Failing.login_refused)
  = Some (Stdout "❌ Vault auth error: permission denied") ∧
  List.filter is_vault_read
    (trace Demo.str_exn Demo.repr_value Demo.argv Demo.environ
       Failing.login_refused) = [] ∧
  platform_calls
    (trace Demo.str_exn Demo.repr_value Demo.argv Demo.environ
       Failing.login_refused) = [].
Proof.
  apply (X3_vault_login_refused Demo.str_exn Demo.repr_value Demo.argv
           Demo.environ Failing.login_refused "hunter2").
  - vm_compute. reflexivity.
  - vm_compute. reflexivity.
  - left. eexists. reflexivity.
Defined.

Lemma X4_witness :
  run Demo.str_exn Demo.repr_value Demo.argv Demo.environ_empty_password
    Failing.no_terminal
  = (1%Z,
     [GetPass "Enter Vault userpass password for user1: ";
      Traceback (Foreign "EOF when reading a line")]).
Proof.
  apply (X4_prompt_failure Demo.str_exn Demo.repr_value Demo.argv
           Demo.environ_empty_password Failing.no_terminal).
  - vm_compute. reflexivity.
  - right. vm_compute. reflexivity.
  - reflexivity.
Defined.

Lemma X5_witness :
  let w := with_secret Demo.world (Err (Foreign "invalid path")) in
  exit_code Demo.str_exn Demo.repr_value Demo.argv Demo.environ w = 1%Z ∧
  last (trace Demo.str_exn Demo.repr_value Demo.argv Demo.environ w)
  = Some (Stdout "❌ Error reading Vault secret: invalid path") ∧
  platform_calls (trace Demo.str_exn Demo.repr_value Demo.argv Demo.environ w)
  = [].
Proof.
  intros w.
  apply (X5_secret_read_error Demo.str_exn Demo.repr_value Demo.argv
           Demo.environ w "hunter2" (Foreign "invalid path")).
  - reach.
  - reflexivity.
Defined.

Lemma X6_witness :
  let w := Demo.with_find Demo.world
             (Ok (Demo.ok_response (JObj {["results" := JList [JObj ∅]]}))) in
  exit_code Demo.str_exn Demo.repr_value Demo.argv Demo.environ w = 1%Z ∧
  last (trace Demo.str_exn Demo.repr_value Demo.argv Demo.environ w)
  = Some (Stdout "❌ Error fetching credential: 'id'") ∧
  platform_calls (trace Demo.str_exn Demo.repr_value Demo.argv Demo.environ w)
  = [HttpGet Demo.session
       "https://awxurl.com/api/v2/credentials/?name=my-credential" true].
Proof.
  intros w.
  apply (X6_search_error Demo.str_exn Demo.repr_value Demo.argv Demo.environ
           w "hunter2" (JStr "X") (KeyError (SubStr "id"))).
  - reach.
  - vm_compute. reflexivity.
Defined.

Lemma X7_witness :
  let w := Demo.with_find Demo.world
             (Ok (Failing.forbidden
                    (JObj {["results" := JList [JObj {["id" := JInt 7]}]]}))) in
  exit_code Demo.str_exn Demo.repr_value Demo.argv Demo.environ w = 1%Z ∧
  last (trace Demo.str_exn Demo.repr_value Demo.argv Demo.environ w)
  = Some (Stdout "❌ Error fetching credential: 403 Client Error: Forbidden for url: https://awxurl.com/api/v2/credentials/?name=my-credential") ∧
  patch_bodies (trace Demo.str_exn Demo.repr_value Demo.argv Demo.environ w)
  = [].
Proof.
  intros w.
  apply (X7_search_http_error Demo.str_exn Demo.repr_value Demo.argv
           Demo.environ w "hunter2" (JStr "X")
           (Failing.forbidden
              (JObj {["results" := JList [JObj {["id" := JInt 7]}]]}))).
  - reach.
  - reflexivity.
  - simpl. lia.
Defined.

Lemma X8_witness :
  let w := Demo.with_detail Demo.world (Err (Foreign "timed out")) in
  exit_code Demo.str_exn Demo.repr_value Demo.argv Demo.environ w = 1%Z ∧
  last (trace Demo.str_exn Demo.repr_value Demo.argv Demo.environ w)
  = Some (Stdout "❌ Failed to fetch credential details: timed out") ∧
  patch_bodies (trace Demo.str_exn Demo.repr_value Demo.argv Demo.environ w)
  = [].
Proof.
  intros w.
  apply (X8_fetch_failure Demo.str_exn Demo.repr_value Demo.argv Demo.environ
           w "hunter2" (JStr "X") (JInt 7) (Foreign "timed out")).
  - reach.
  - reflexivity.
Defined.

Lemma X9_witness :
  let w := Demo.with_detail Demo.world
             (Ok (Demo.ok_response (JObj {["inputs" := JNull]}))) in
  exit_code Demo.str_exn Demo.repr_value Demo.argv Demo.environ w = 1%Z ∧
  last (trace Demo.str_exn Demo.repr_value Demo.argv Demo.environ w)
  = Some (Traceback (TypeErrorSetItem TNone (SubStr "role_id"))) ∧
  patch_bodies (trace Demo.str_exn Demo.repr_value Demo.argv Demo.environ w)
  = [].
Proof.
  intros w.
  apply (X9_inputs_not_a_mapping Demo.str_exn Demo.repr_value Demo.argv
           Demo.environ w "hunter2" (JStr "X") (JInt 7) JNull).
  - reach.
  - vm_compute. reflexivity.
  - simpl. discriminate.
Defined.

Lemma X10_witness :
  let w := Demo.with_patch Demo.world (Err (Foreign "connection reset")) in
  exit_code Demo.str_exn Demo.repr_value Demo.argv Demo.environ w = 0%Z ∧
  last (trace Demo.str_exn Demo.repr_value Demo.argv Demo.environ w)
  = Some (Stdout "❌ Error during update: connection reset").
Proof.
  intros w.
  apply (X10_update_exception Demo.str_exn Demo.repr_value Demo.argv
           Demo.environ w "hunter2" (JStr "X") (JInt 7)
           {["a" := JInt 1; "b" := JInt 2]} (Foreign "connection reset")).
  - reach.
  - reflexivity.
Defined.

Lemma X11_witness :
  let accepted :=
    {| status_code := 202; text := ""; json_body := Ok JNull;
       reason := "Accepted";
       response_url := "https://awxurl.com/api/v2/credentials/7/" |} in
  let w := Demo.with_patch Demo.world (Ok accepted) in
  last (trace Demo.str_exn Demo.repr_value Demo.argv Demo.environ w)
  = Some (Stdout "✅ Successfully updated 'role_id' for credential 'my-credential' (ID 7)").
Proof.
  intros accepted w.
  apply (proj2 (X11_success_line Demo.str_exn Demo.repr_value Demo.argv
                  Demo.environ w "hunter2" (JStr "X") (JInt 7)
                  {["a" := JInt 1; "b" := JInt 2]} ltac:(reach))).
  exists accepted. split; [reflexivity|]. right. reflexivity.
Defined.

Lemma X13_witness :
  configured (parse_args Demo.argv Demo.environ) = true ∧
  vault_ok Demo.world ∧
  ∃ role_id,
    retrieved_secret Demo.world (parse_args Demo.argv Demo.environ)
    = Ok role_id ∧ truthy role_id = true.
Proof.
  apply (X13_platform_after_vault Demo.str_exn Demo.repr_value Demo.argv
           Demo.environ Demo.world
           (HttpGet Demo.session
              "https://awxurl.com/api/v2/credentials/?name=my-credential" true)).
  - vm_compute. do 4 right. left. reflexivity.
  - reflexivity.
Defined.

Lemma X14_witness :
  fst (auth Demo.session) = Some "user1" ∧
  headers Demo.session !! "Content-Type" = Some "application/json" ∧
  ∀ name, name ≠ "Content-Type" →
          headers Demo.session !! name = default_headers Demo.world !! name.
Proof.
  apply (X14_platform_session Demo.str_exn Demo.repr_value Demo.argv
           Demo.environ Demo.world
           (HttpGet Demo.session
              "https://awxurl.com/api/v2/credentials/?name=my-credential" true)
           Demo.session).
  - vm_compute. do 4 right. left. reflexivity.
  - reflexivity.
Defined.

Lemma X15_witness :
  let args := parse_args Demo.argv Demo.environ in
  let echo :=
    {| status_code := 400;
       text := "role_id 'another' is not valid";
       json_body := Err (Foreign "Expecting value");
       reason := "Bad Request";
       response_url := "https://awxurl.com/api/v2/credentials/7/" |} in
  let w2 :=
    with_secret (Demo.with_patch Demo.world (Ok echo))
      (Ok (secret_response
             (JObj {["credentials" := JObj {["password" := JStr "another"]}]}))) in
  exit_code Demo.str_exn Demo.repr_value Demo.argv Demo.environ Demo.world
  = exit_code Demo.str_exn Demo.repr_value Demo.argv Demo.environ w2 ∧
  ∃ before,
    patch_bodies before = [] ∧
    ((trace Demo.str_exn Demo.repr_value Demo.argv Demo.environ Demo.world
      = before ∧
      trace Demo.str_exn Demo.repr_value Demo.argv Demo.environ w2 = before) ∨
     ∃ cred_id inputs,
       trace Demo.str_exn Demo.repr_value Demo.argv Demo.environ Demo.world
       = before ++
         [HttpPatch (new_session Demo.world args "hunter2")
            (cred_url_of Demo.repr_value args cred_id)
            (patch_body (JObj (<["role_id" := JStr "X"]> inputs))) true;
          Stdout (update_report Demo.str_exn Demo.repr_value Demo.world args
                    cred_id)] ∧
       trace Demo.str_exn Demo.repr_value Demo.argv Demo.environ w2
       = before ++
         [HttpPatch (new_session Demo.world args "hunter2")
            (cred_url_of Demo.repr_value args cred_id)
            (patch_body (JObj (<["role_id" := JStr "another"]> inputs))) true;
          Stdout (update_report Demo.str_exn Demo.repr_value w2 args
                    cred_id)]).
Proof.
  intros args echo w2.
  apply (X15_secret_only_in_patch Demo.str_exn Demo.repr_value Demo.argv
           Demo.environ Demo.world w2 "hunter2" (JStr "X") (JStr "another")).
  - repeat split.
  - reach.
  - vm_compute. reflexivity.
  - reflexivity.
Defined.
